(** * Revisioned index deployment to S3: a model of [lib/s3.js]

    The module uploads one revision of an index file under a key of its own,
    lists the uploaded revisions, and activates one of them by a server-side
    copy onto the index key.  The JavaScript is embedded function by function:
    promises become a state-passing computation over a simulated storage
    client that answers from a script and records every call it receives. *)

From Stdlib Require Import String Ascii List ZArith Lia Bool Sorted Permutation.
Import ListNotations.
Local Open Scope string_scope.
Local Open Scope list_scope.

Set Implicit Arguments.

(** JavaScript's [+] on strings, left associative as in the source. *)
Notation "a +' b" := (String.append a b) (at level 50, left associativity).

(* ================================================================== *)
(** ** Strings *)

Definition SEP : ascii := "/"%char.

Definition isSep (c : ascii) : bool := Ascii.eqb c SEP.

(** [s.substr(start)]: the part of [s] from position [start] to its end. *)
Fixpoint substr (start : nat) (s : string) : string :=
  match start, s with
  | O, _ => s
  | S n, EmptyString => EmptyString
  | S n, String _ s' => substr n s'
  end.

Fixpoint dropLeadingSeparators (s : string) : string :=
  match s with
  | EmptyString => EmptyString
  | String c s' => if isSep c then dropLeadingSeparators s' else s
  end.

Fixpoint dropTrailingSeparators (s : string) : string :=
  match s with
  | EmptyString => EmptyString
  | String c s' =>
      match dropTrailingSeparators s' with
      | EmptyString => if isSep c then EmptyString else String c EmptyString
      | r => String c r
      end
  end.

(** Modelled from the spec: [./util/join-uri-segments] is required by
    [lib/s3.js] but is not among the sources.  The spec's key builder joins
    the two segments with a single separator and collapses the duplicate
    separators at the join point; an empty prefix leaves no leading
    separator. *)
Definition joinUriSegments (prefix uri : string) : string :=
  match dropTrailingSeparators prefix with
  | EmptyString => dropLeadingSeparators uri
  | p => p +' "/" +' dropLeadingSeparators uri
  end.

(** [Array.prototype.indexOf] on an array of strings: the first position
    holding [x] (compared with [===]), or [-1]. *)
Fixpoint indexOfFrom (i : Z) (x : string) (l : list string) : Z :=
  match l with
  | [] => (-1)%Z
  | y :: l' => if String.eqb y x then i else indexOfFrom (i + 1)%Z x l'
  end.

Definition indexOf (x : string) (l : list string) : Z := indexOfFrom 0%Z x l.

(** [encodeURIComponent] on a string of UTF-8 bytes: letters, digits and
    [- _ . ! ~ * ' ( )] stay, every other byte becomes [%XX]. *)
Definition hexDigit (n : nat) : ascii :=
  match n with
  | 0 => "0" | 1 => "1" | 2 => "2" | 3 => "3" | 4 => "4" | 5 => "5"
  | 6 => "6" | 7 => "7" | 8 => "8" | 9 => "9" | 10 => "A" | 11 => "B"
  | 12 => "C" | 13 => "D" | 14 => "E" | _ => "F"
  end%char.

Definition isUnreserved (c : ascii) : bool :=
  let n := nat_of_ascii c in
  ((65 <=? n)%nat && (n <=? 90)%nat) || ((97 <=? n)%nat && (n <=? 122)%nat)
  || ((48 <=? n)%nat && (n <=? 57)%nat)
  || existsb (Ascii.eqb c)
       ["-"; "_"; "."; "!"; "~"; "*"; "'"; "("; ")"]%char.

Fixpoint encodeURIComponent (s : string) : string :=
  match s with
  | EmptyString => EmptyString
  | String c s' =>
      if isUnreserved c then String c (encodeURIComponent s')
      else
        let n := nat_of_ascii c in
        String "%" (String (hexDigit (n / 16)%nat) (String (hexDigit (n mod 16)%nat)
          (encodeURIComponent s')))
  end.

(** JavaScript truthiness of an optional string: [undefined] and the empty
    string are falsy. *)
Definition truthyString (v : option string) : option string :=
  match v with
  | Some EmptyString => None
  | other => other
  end.

(* ================================================================== *)
(** ** [Array.prototype.sort] with a comparator

    The comparator returns a number, [None] standing for [NaN]; the sort
    takes [NaN] for zero.  An element stays in front of another when the
    comparator is not positive on the pair.  The engine's algorithm is not
    fixed by the language: the model is a stable insertion sort. *)

Section Sort.
Variable A : Type.
Variable compareFn : A -> A -> option Z.

(** The number the sort works with. *)
Definition sortCompare (x y : A) : Z :=
  match compareFn x y with
  | Some v => v
  | None => 0%Z
  end.

Fixpoint insertSorted (x : A) (l : list A) : list A :=
  match l with
  | [] => [x]
  | y :: l' =>
      if (sortCompare x y <=? 0)%Z then x :: l else y :: insertSorted x l'
  end.

Fixpoint sort (l : list A) : list A :=
  match l with
  | [] => []
  | x :: l' => insertSorted x (sort l')
  end.
End Sort.

(* ================================================================== *)
(** ** Data exchanged with the storage client *)

Record AwsError := { code : string; message : string }.

(** What a Node callback [function(err, data)] is called with. *)
Inductive Reply (A : Type) :=
| Failure (err : AwsError)
| Success (data : A).
Arguments Failure {A} err.
Arguments Success {A} data.

(** One element of [response.Contents]; [LastModified] in milliseconds, the
    number a [Date] subtraction works on. *)
Record S3Object := { Key : string; LastModified : Z; ETag : string }.

Record ListObjectsOutput := {
  Contents : list S3Object;
  IsTruncated : bool;
  NextMarker : option string
}.

(** The last response of a listing, with the [All] field the source adds. *)
Record ListAllOutput := { Last : ListObjectsOutput; All : list S3Object }.

Record HeadObjectOutput := { HeadETag : string; HeadLastModified : Z }.

Module ListObjectsParams.
Record t := { Bucket : string; Prefix : string; Marker : option string }.
End ListObjectsParams.

Module HeadObjectParams.
Record t := { Bucket : string; Key : string }.
End HeadObjectParams.

Module PutObjectParams.
Record t := {
  Bucket : string;
  Key : string;
  ACL : string;
  ContentType : string;
  CacheControl : string;
  ServerSideEncryption : option string;
  ContentEncoding : option string;
  Body : string
}.
End PutObjectParams.

Module CopyObjectParams.
Record t := {
  Bucket : string;
  CopySource : string;
  Key : string;
  ACL : string;
  ServerSideEncryption : option string
}.
End CopyObjectParams.

Inductive Call :=
| ListObjectsCall (params : ListObjectsParams.t)
| HeadObjectCall (params : HeadObjectParams.t)
| PutObjectCall (params : PutObjectParams.t)
| CopyObjectCall (params : CopyObjectParams.t).

(** The [options] object handed to [upload], [activate] and
    [fetchRevisions]. *)
Record Options := {
  bucket : string;
  acl : string;
  cacheControl : string;
  allowOverwrite : bool;
  filePattern : string;
  revisionKey : string;
  prefix : string;
  filePath : string;
  gzippedFilePaths : option (list string);
  serverSideEncryption : option string
}.

(** The value of [data.current && d.ETag === data.current.ETag]. *)
Inductive JsValue :=
| JsUndefined
| JsBoolean (b : bool).

Definition truthy (v : JsValue) : bool :=
  match v with
  | JsUndefined => false
  | JsBoolean b => b
  end.

Record Revision := { revision : string; timestamp : Z; active : JsValue }.

(* ================================================================== *)
(** ** Promises over a simulated client *)

Inductive Reason :=
| ClientError (err : AwsError)
| FsError (path : string)
| Message (msg : string)
| TypeError (msg : string).

(** The state of a promise once the client has said all it has to say:
    resolved, rejected, or still pending because an answer never came. *)
Inductive Settled (A : Type) :=
| Resolved (value : A)
| Rejected (reason : Reason)
| Pending.
Arguments Resolved {A} value.
Arguments Rejected {A} reason.
Arguments Pending {A}.

(** The client answers [listObjects] from a script, one reply per request,
    and decides the other requests from their parameters.  [calls] records
    the requests in the order they were issued. *)
Record World := {
  listObjectsReplies : list (Reply ListObjectsOutput);
  headObjectReply : HeadObjectParams.t -> Reply HeadObjectOutput;
  putObjectReply : PutObjectParams.t -> Reply unit;
  copyObjectReply : CopyObjectParams.t -> Reply unit;
  files : string -> option string;
  mimeLookup : string -> option string;
  calls : list Call
}.

Definition issue (c : Call) (w : World) : World :=
  {| listObjectsReplies := listObjectsReplies w;
     headObjectReply := headObjectReply w;
     putObjectReply := putObjectReply w;
     copyObjectReply := copyObjectReply w;
     files := files w;
     mimeLookup := mimeLookup w;
     calls := calls w ++ [c] |}.

Definition answered (w : World) : World :=
  {| listObjectsReplies := tl (listObjectsReplies w);
     headObjectReply := headObjectReply w;
     putObjectReply := putObjectReply w;
     copyObjectReply := copyObjectReply w;
     files := files w;
     mimeLookup := mimeLookup w;
     calls := calls w |}.

Definition Promise (A : Type) : Type := World -> Settled A * World.

Definition resolve {A} (a : A) : Promise A := fun w => (Resolved a, w).

Definition reject {A} (r : Reason) : Promise A := fun w => (Rejected r, w).

Definition andThen {A B} (p : Promise A) (f : A -> Promise B) : Promise B :=
  fun w =>
    match p w with
    | (Resolved a, w') => f a w'
    | (Rejected r, w') => (Rejected r, w')
    | (Pending, w') => (Pending, w')
    end.

Notation "x <- p ;; k" := (andThen p (fun x => k))
  (at level 61, p at next level, right associativity).

(** [Promise.hash] of two promises: both have been started, so both run;
    the result is rejected when either is.  The calls of the first are
    recorded before those of the second, whereas the source sends the probe
    right after the first listing request: how the reads of the two
    interleave is left out of the model. *)
Definition hash {A B} (pa : Promise A) (pb : Promise B) : Promise (A * B) :=
  fun w =>
    let (ra, w1) := pa w in
    let (rb, w2) := pb w1 in
    (match ra, rb with
     | Resolved a, Resolved b => Resolved (a, b)
     | Rejected r, _ => Rejected r
     | _, Rejected r => Rejected r
     | _, _ => Pending
     end, w2).

(** [Promise.denodeify]: an error rejects, data resolves. *)
Definition denodeify {A} (r : Reply A) : Settled A :=
  match r with
  | Failure err => Rejected (ClientError err)
  | Success data => Resolved data
  end.

(** [Promise.denodeify(client.listObjects.bind(client))]: the request is
    recorded and settled by the next reply of the script; with no reply
    left it stays pending. *)
Definition listObjects (params : ListObjectsParams.t)
  : Promise ListObjectsOutput :=
  fun w =>
    let w' := issue (ListObjectsCall params) w in
    match listObjectsReplies w with
    | [] => (Pending, w')
    | r :: _ => (denodeify r, answered w')
    end.

Definition putObject (params : PutObjectParams.t) : Promise unit :=
  fun w => (denodeify (putObjectReply w params), issue (PutObjectCall params) w).

Definition copyObject (params : CopyObjectParams.t) : Promise unit :=
  fun w =>
    (denodeify (copyObjectReply w params), issue (CopyObjectCall params) w).

Definition readFile (path : string) : Promise string :=
  fun w =>
    match files w path with
    | Some contents => (Resolved contents, w)
    | None => (Rejected (FsError path), w)
    end.

(* ================================================================== *)
(** ** The functions of [lib/s3.js] *)

(** [headObject(client, params)]: the not-found error code resolves to
    nothing, any other error rejects, data resolves. *)
Definition headObject (params : HeadObjectParams.t)
  : Promise (option HeadObjectOutput) :=
  fun w =>
    let w' := issue (HeadObjectCall params) w in
    match headObjectReply w params with
    | Failure err =>
        if String.eqb (code err) "NotFound" then (Resolved None, w')
        else (Rejected (ClientError err), w')
    | Success data => (Resolved (Some data), w')
    end.

(** A synchronous JavaScript evaluation: a value, or a thrown exception. *)
Inductive Completion (A : Type) :=
| Normal (value : A)
| Throw (reason : Reason).
Arguments Normal {A} value.
Arguments Throw {A} reason.

(** [arr[arr.length - 1]], which is [undefined] on the empty array. *)
Fixpoint lastItem {A} (l : list A) : option A :=
  match l with
  | [] => None
  | [x] => Some x
  | _ :: l' => lastItem l'
  end.

Definition getNextMarker (response : ListObjectsOutput) : Completion string :=
  match truthyString (NextMarker response) with
  | Some marker => Normal marker
  | None =>
      match lastItem (Contents response) with
      | Some d => Normal (Key d)
      | None => Throw (TypeError "Cannot read property 'Key' of undefined")
      end
  end.

Definition setMarker (options : ListObjectsParams.t) (marker : string)
  : ListObjectsParams.t :=
  {| ListObjectsParams.Bucket := ListObjectsParams.Bucket options;
     ListObjectsParams.Prefix := ListObjectsParams.Prefix options;
     ListObjectsParams.Marker := Some marker |}.

(** [listObjectRecursively]; [allRevisions] is the array of the enclosing
    [listAllObjects].  [fuel] bounds the number of pages requested: the
    promise of a listing that needs more is still pending. *)
Fixpoint listObjectRecursively (fuel : nat) (options : ListObjectsParams.t)
  (allRevisions : list S3Object) : Promise ListAllOutput :=
  match fuel with
  | O => fun w => (Pending, w)
  | S fuel' =>
      response <- listObjects options ;;
      let allRevisions' := allRevisions ++ Contents response in
      if IsTruncated response then
        match getNextMarker response with
        | Normal marker =>
            listObjectRecursively fuel' (setMarker options marker) allRevisions'
        | Throw exn => reject exn
        end
      else resolve {| Last := response; All := allRevisions' |}
  end.

Definition listAllObjects (fuel : nat) (options : ListObjectsParams.t)
  : Promise ListAllOutput :=
  listObjectRecursively fuel options [].

Definition revisionPrefixOf (options : Options) : string :=
  joinUriSegments (prefix options) (filePattern options +' ":").

Definition indexKeyOf (options : Options) : string :=
  joinUriSegments (prefix options) (filePattern options).

Definition revisionKeyOf (options : Options) : string :=
  joinUriSegments (prefix options)
    (filePattern options +' ":" +' revisionKey options).

(** The largest time value of a [Date], in milliseconds either side of the
    epoch. *)
Definition MAX_TIME_VALUE : Z := 8640000000000000%Z.

Definition validTime (t : Z) : bool :=
  ((- MAX_TIME_VALUE <=? t) && (t <=? MAX_TIME_VALUE))%Z.

(** The time value of [new Date(t)]: [t] itself within the range of
    dates, [NaN] (an invalid date) outside. *)
Definition newDate (t : Z) : option Z :=
  if validTime t then Some t else None.

(** The comparator of [fetchRevisions]:
    [new Date(b.LastModified) - new Date(a.LastModified)], which is [NaN]
    when either date is invalid. *)
Definition byLastModified (a b : S3Object) : option Z :=
  match newDate (LastModified b), newDate (LastModified a) with
  | Some tb, Some ta => Some (tb - ta)%Z
  | _, _ => None
  end.

(** The listed object carries a valid date. *)
Definition validDate (d : S3Object) : Prop :=
  validTime (LastModified d) = true.

Definition toRevision (revisionPrefix : string)
  (current : option HeadObjectOutput) (d : S3Object) : Revision :=
  {| revision := substr (String.length revisionPrefix) (Key d);
     timestamp := LastModified d;
     active := match current with
               | None => JsUndefined
               | Some c => JsBoolean (String.eqb (ETag d) (HeadETag c))
               end |}.

Definition fetchRevisions (fuel : nat) (options : Options)
  : Promise (list Revision) :=
  let revisionPrefix := revisionPrefixOf options in
  let indexKey := indexKeyOf options in
  data <- hash
            (listAllObjects fuel
               {| ListObjectsParams.Bucket := bucket options;
                  ListObjectsParams.Prefix := revisionPrefix;
                  ListObjectsParams.Marker := None |})
            (headObject
               {| HeadObjectParams.Bucket := bucket options;
                  HeadObjectParams.Key := indexKey |}) ;;
  resolve (map (toRevision revisionPrefix (snd data))
             (sort byLastModified (All (fst data)))).

Definition REVISION_ALREADY_UPLOADED : string :=
  "REVISION ALREADY UPLOADED! (set `allowOverwrite: true` if you want to support overwriting revisions)".

Definition REVISION_NOT_FOUND : string := "REVISION NOT FOUND!".

Definition orElse {A} (v : option A) (d : A) : A :=
  match v with
  | Some a => a
  | None => d
  end.

(** The [params] of [upload], once [Body] is set. *)
Definition uploadParams (options : Options) (w : World) (fileContents : string)
  : PutObjectParams.t :=
  let isGzipped :=
    negb (indexOf (filePattern options) (orElse (gzippedFilePaths options) [])
          =? -1)%Z in
  {| PutObjectParams.Bucket := bucket options;
     PutObjectParams.Key := revisionKeyOf options;
     PutObjectParams.ACL := acl options;
     PutObjectParams.ContentType :=
       orElse (truthyString (mimeLookup w (filePath options))) "text/html";
     PutObjectParams.CacheControl := cacheControl options;
     PutObjectParams.ServerSideEncryption :=
       truthyString (serverSideEncryption options);
     PutObjectParams.ContentEncoding :=
       if isGzipped then Some "gzip" else None;
     PutObjectParams.Body := fileContents |}.

(** [upload]; the [plugin.log] that follows the write is left out, here
    and in [activate]. *)
Definition upload (fuel : nat) (options : Options) : Promise unit :=
  fun w =>
    andThen
      (andThen
         (andThen (fetchRevisions fuel options)
            (fun revisions =>
               let found :=
                 indexOf (revisionKey options) (map revision revisions) in
               if (found >=? 0)%Z && negb (allowOverwrite options)
               then reject (Message REVISION_ALREADY_UPLOADED)
               else resolve tt))
         (fun _ => readFile (filePath options)))
      (fun fileContents => putObject (uploadParams options w fileContents))
      w.

Definition activateParams (options : Options) : CopyObjectParams.t :=
  {| CopyObjectParams.Bucket := bucket options;
     CopyObjectParams.CopySource :=
       encodeURIComponent (bucket options +' "/" +' revisionKeyOf options);
     CopyObjectParams.Key := indexKeyOf options;
     CopyObjectParams.ACL := acl options;
     CopyObjectParams.ServerSideEncryption :=
       truthyString (serverSideEncryption options) |}.

Definition activate (fuel : nat) (options : Options) : Promise unit :=
  revisions <- fetchRevisions fuel options ;;
  let found := indexOf (revisionKey options) (map revision revisions) in
  if (found >=? 0)%Z then copyObject (activateParams options)
  else reject (Message REVISION_NOT_FOUND).

(* ================================================================== *)
(** ** What a run leaves in the call record *)

Definition isWrite (c : Call) : bool :=
  match c with
  | PutObjectCall _ | CopyObjectCall _ => true
  | _ => false
  end.

(** The calls that change the bucket. *)
Definition writes (l : list Call) : list Call := filter isWrite l.

Definition putCalls (l : list Call) : list PutObjectParams.t :=
  flat_map (fun c => match c with PutObjectCall p => [p] | _ => [] end) l.

Definition copyCalls (l : list Call) : list CopyObjectParams.t :=
  flat_map (fun c => match c with CopyObjectCall p => [p] | _ => [] end) l.

(** The key a call writes to, if it writes. *)
Definition writtenKey (c : Call) : option string :=
  match c with
  | PutObjectCall p => Some (PutObjectParams.Key p)
  | CopyObjectCall p => Some (CopyObjectParams.Key p)
  | _ => None
  end.

Definition writtenKeys (l : list Call) : list string :=
  flat_map (fun c => match writtenKey c with Some k => [k] | None => [] end) l.

(** The markers of the [listObjects] requests, in request order. *)
Definition listMarkers (l : list Call) : list (option string) :=
  flat_map (fun c => match c with
                     | ListObjectsCall p => [ListObjectsParams.Marker p]
                     | _ => []
                     end) l.

(** The request [options] with its [Marker] replaced. *)
Definition withMarker (options : ListObjectsParams.t) (marker : option string)
  : ListObjectsParams.t :=
  {| ListObjectsParams.Bucket := ListObjectsParams.Bucket options;
     ListObjectsParams.Prefix := ListObjectsParams.Prefix options;
     ListObjectsParams.Marker := marker |}.

(** The [listObjects] requests of a listing that sends [markers] in turn. *)
Definition listRequests (options : ListObjectsParams.t)
  (markers : list (option string)) : list Call :=
  map (fun m => ListObjectsCall (withMarker options m)) markers.

(** ** Predicates used in the statements *)

(** What the simulated client keeps from one call to the next: everything
    but the listing script and the call record. *)
Definition sameClient (w w' : World) : Prop :=
  headObjectReply w' = headObjectReply w
  /\ putObjectReply w' = putObjectReply w
  /\ copyObjectReply w' = copyObjectReply w
  /\ files w' = files w
  /\ mimeLookup w' = mimeLookup w.

(** A page from which a next marker can be had: it names one (a non-empty
    string), or it has a last item. *)
Definition markerDerivable (page : ListObjectsOutput) : Prop :=
  truthyString (NextMarker page) <> None \/ Contents page <> [].

Definition truncatedPage (page : ListObjectsOutput) : Prop :=
  IsTruncated page = true /\ markerDerivable page.

(** [marker] is the marker that follows [page]: the page's explicit marker
    when it has one, else the key of its last item. *)
Definition followsPage (page : ListObjectsOutput) (marker : option string)
  : Prop :=
  (forall m, NextMarker page = Some m -> m <> "" -> marker = Some m)
  /\ (truthyString (NextMarker page) = None ->
      exists d, lastItem (Contents page) = Some d /\ marker = Some (Key d)).

(** [a] may stand in front of [b] in a listing ordered newest first. *)
Definition newerFirst (a b : S3Object) : Prop :=
  (LastModified b <= LastModified a)%Z.

Definition newerFirstRevision (a b : Revision) : Prop :=
  (timestamp b <= timestamp a)%Z.

(** The records of a ledger that are flagged active. *)
Definition activeRevisions (revisions : list Revision) : list Revision :=
  filter (fun r => truthy (active r)) revisions.

(** The parameters of the two reads of [fetchRevisions]. *)
Definition listingParams (options : Options) : ListObjectsParams.t :=
  {| ListObjectsParams.Bucket := bucket options;
     ListObjectsParams.Prefix := revisionPrefixOf options;
     ListObjectsParams.Marker := None |}.

Definition probeParams (options : Options) : HeadObjectParams.t :=
  {| HeadObjectParams.Bucket := bucket options;
     HeadObjectParams.Key := indexKeyOf options |}.

(** The listed object's fingerprint is the one found at the index key. *)
Definition matchesCurrent (current : option HeadObjectOutput) (d : S3Object)
  : bool :=
  match current with
  | Some c => String.eqb (ETag d) (HeadETag c)
  | None => false
  end.

(** [r] is the ledger record of the listed object [d], for a ledger
    fetched with the options [o] from the client [w]: its revision is the
    key without the listing prefix, its timestamp is the object's, and it is
    active exactly when the probe of the index key answered with an object
    of the same fingerprint. *)
Definition recordOf (o : Options) (w : World) (d : S3Object) (r : Revision)
  : Prop :=
  revision r = substr (String.length (revisionPrefixOf o)) (Key d)
  /\ timestamp r = LastModified d
  /\ (truthy (active r) = true <->
      exists c, headObjectReply w (probeParams o) = Success c
                /\ ETag d = HeadETag c).

(* ================================================================== *)
(** ** Sample deployments *)

Definition sampleObject (id : string) (lastModified : Z) (etag : string)
  : S3Object :=
  {| Key := "app/index.html:" +' id;
     LastModified := lastModified;
     ETag := etag |}.

Definition samplePage (items : list S3Object) (truncated : bool)
  (marker : option string) : ListObjectsOutput :=
  {| Contents := items; IsTruncated := truncated; NextMarker := marker |}.

Definition notFound : AwsError :=
  {| code := "NotFound"; message := "Not Found" |}.

Definition accessDenied : AwsError :=
  {| code := "AccessDenied"; message := "Access Denied" |}.

(** A client with a listing script and one answer to the probe of the
    index key; it acknowledges every write and holds one local file. *)
Definition sampleClient (script : list (Reply ListObjectsOutput))
  (head : Reply HeadObjectOutput) : World :=
  {| listObjectsReplies := script;
     headObjectReply := fun _ => head;
     putObjectReply := fun _ => Success tt;
     copyObjectReply := fun _ => Success tt;
     files := fun path =>
                if String.eqb path "dist/index.html"
                then Some "<html></html>" else None;
     mimeLookup := fun _ => Some "text/html";
     calls := [] |}.

Definition sampleOptions (revisionIdentifier : string) (overwrite : bool)
  : Options :=
  {| bucket := "assets";
     acl := "public-read";
     cacheControl := "max-age=0, no-cache";
     allowOverwrite := overwrite;
     filePattern := "index.html";
     revisionKey := revisionIdentifier;
     prefix := "app/";
     filePath := "dist/index.html";
     gzippedFilePaths := None;
     serverSideEncryption := None |}.

(** Three truncated pages of three items, the second with an explicit
    marker, and a last page of one item. *)
Definition threePages : list ListObjectsOutput :=
  [ samplePage [sampleObject "r01" 1 "e01"; sampleObject "r02" 2 "e02";
                sampleObject "r03" 3 "e03"] true None;
    samplePage [sampleObject "r04" 4 "e04"; sampleObject "r05" 5 "e05";
                sampleObject "r06" 6 "e06"] true (Some "app/index.html:r06x");
    samplePage [sampleObject "r07" 7 "e07"; sampleObject "r08" 8 "e08";
                sampleObject "r09" 9 "e09"] true None ].

Definition fourthPage : ListObjectsOutput :=
  samplePage [sampleObject "r10" 10 "e10"] false None.

(** A truncated page with neither items nor marker. *)
Definition emptyTruncatedPage : ListObjectsOutput := samplePage [] true None.

Definition fourPageClient : World :=
  sampleClient (map Success threePages ++ [Success fourthPage])
    (Failure notFound).

Definition brokenListingClient : World :=
  sampleClient (map Success threePages ++ [Success emptyTruncatedPage])
    (Failure notFound).

(** Three revisions listed out of order, the index object being a copy of
    revision 2. *)
Definition threeRevisions : list S3Object :=
  [sampleObject "1" 100 "e1"; sampleObject "3" 300 "e3";
   sampleObject "2" 200 "e2"].

Definition ledgerClient : World :=
  sampleClient [Success (samplePage threeRevisions false None)]
    (Success {| HeadETag := "e2"; HeadLastModified := 400 |}).

(** The same listing when nothing has been activated yet. *)
Definition freshClient : World :=
  sampleClient [Success (samplePage threeRevisions false None)]
    (Failure notFound).

(** Two revisions with the same content, one of them activated. *)
Definition twinRevisions : list S3Object :=
  [sampleObject "1" 100 "same"; sampleObject "2" 200 "same"].

Definition twinClient : World :=
  sampleClient [Success (samplePage twinRevisions false None)]
    (Success {| HeadETag := "same"; HeadLastModified := 300 |}).

Definition sampleRevision (id : string) (t : Z) (flag : bool) : Revision :=
  {| revision := id; timestamp := t; active := JsBoolean flag |}.

(** The ledger of [ledgerClient]. *)
Definition sampleLedger : list Revision :=
  [sampleRevision "3" 300 false; sampleRevision "2" 200 true;
   sampleRevision "1" 100 false].

(** The ledger of [twinClient]. *)
Definition twinLedger : list Revision :=
  [sampleRevision "2" 200 true; sampleRevision "1" 100 true].

(** A client whose probe of the index key fails for another reason than
    the object being absent. *)
Definition deniedClient : World :=
  sampleClient [Success (samplePage threeRevisions false None)]
    (Failure accessDenied).

(** The client of [ledgerClient] after the ledger has been fetched. *)
Definition ledgerRead : World :=
  snd (fetchRevisions 1 (sampleOptions "2" false) ledgerClient).

(** A listing whose first page is truncated, empty and without marker. *)
Definition emptyPageClient : World :=
  sampleClient [Success emptyTruncatedPage; Success fourthPage]
    (Failure notFound).

(** A deployment of a revision that is not in the ledger yet, from a local
    file that does not exist. *)
Definition missingFileOptions : Options :=
  {| bucket := "assets";
     acl := "public-read";
     cacheControl := "max-age=0, no-cache";
     allowOverwrite := false;
     filePattern := "index.html";
     revisionKey := "4";
     prefix := "app/";
     filePath := "dist/missing.html";
     gzippedFilePaths := None;
     serverSideEncryption := None |}.

(* ================================================================== *)
(** ** Further observations and samples *)

(** The [headObject] requests of a call record. *)
Definition headCalls (l : list Call) : list HeadObjectParams.t :=
  flat_map (fun c => match c with HeadObjectCall p => [p] | _ => [] end) l.

(** The [listObjects] requests of a call record. *)
Definition listCalls (l : list Call) : list ListObjectsParams.t :=
  flat_map (fun c => match c with ListObjectsCall p => [p] | _ => [] end) l.

(** The request [p] is for the bucket and the prefix of [options]. *)
Definition samePrefix (options p : ListObjectsParams.t) : Prop :=
  ListObjectsParams.Bucket p = ListObjectsParams.Bucket options
  /\ ListObjectsParams.Prefix p = ListObjectsParams.Prefix options.

(** A character that [encodeURIComponent] may put out. *)
Definition uriSafe (c : ascii) : Prop :=
  isUnreserved c = true \/ c = "%"%char.

(** The probe did not fail, or failed because the object is absent. *)
Definition probeAnswers (o : Options) (w : World) : Prop :=
  forall err,
    headObjectReply w (probeParams o) = Failure err -> code err = "NotFound".

(** A listing cut short by an error after three pages. *)
Definition interruptedClient : World :=
  sampleClient (map Success threePages ++ [Failure accessDenied])
    (Failure notFound).

(** A bucket without any revision. *)
Definition emptyBucketClient : World :=
  sampleClient [Success (samplePage [] false None)] (Failure notFound).

(** A deployment whose file pattern is flagged as gzipped. *)
Definition gzippedOptions : Options :=
  {| bucket := "assets";
     acl := "public-read";
     cacheControl := "max-age=0, no-cache";
     allowOverwrite := false;
     filePattern := "index.html";
     revisionKey := "4";
     prefix := "app/";
     filePath := "dist/index.html";
     gzippedFilePaths := Some ["assets/app.js"; "index.html"];
     serverSideEncryption := None |}.

(* ================================================================== *)
(** ** Strings and keys *)

Lemma append_assoc (a b c : string) : a +' b +' c = a +' (b +' c).
Proof.
  induction a as [|x a IH]; simpl; [reflexivity|].
  now rewrite IH.
Qed.

Lemma append_nil_r (a : string) : a +' "" = a.
Proof.
  induction a as [|x a IH]; simpl; [reflexivity|].
  now rewrite IH.
Qed.

Lemma length_append (a b : string) :
  String.length (a +' b) = String.length a + String.length b.
Proof.
  induction a as [|x a IH]; simpl; [reflexivity|].
  now rewrite IH.
Qed.

Lemma substr_length_append (p s : string) : substr (String.length p) (p +' s) = s.
Proof.
  induction p as [|x p IH]; simpl; [reflexivity | exact IH].
Qed.

(** A colon is no separator, so the leading separators of
    [filePattern + ":"] are those of [filePattern], and whatever follows the
    colon is left alone. *)
Lemma dropLeadingSeparators_colon (f s : string) :
  dropLeadingSeparators (f +' ":" +' s) = dropLeadingSeparators f +' ":" +' s.
Proof.
  induction f as [|c f IH]; simpl; [reflexivity|].
  destruct (isSep c); [exact IH | reflexivity].
Qed.

Lemma joinUriSegments_colon (p f s : string) :
  joinUriSegments p (f +' ":" +' s) = joinUriSegments p f +' ":" +' s.
Proof.
  unfold joinUriSegments.
  rewrite dropLeadingSeparators_colon.
  destruct (dropTrailingSeparators p) as [|c r]; [reflexivity|].
  now rewrite !append_assoc.
Qed.

Lemma revisionPrefixOf_indexKeyOf (o : Options) :
  revisionPrefixOf o = indexKeyOf o +' ":".
Proof.
  unfold revisionPrefixOf, indexKeyOf.
  rewrite <- (append_nil_r (filePattern o +' ":")).
  rewrite joinUriSegments_colon.
  now rewrite append_nil_r.
Qed.

Lemma revisionKeyOf_revisionPrefixOf (o : Options) :
  revisionKeyOf o = revisionPrefixOf o +' revisionKey o.
Proof.
  unfold revisionKeyOf.
  rewrite joinUriSegments_colon.
  now rewrite revisionPrefixOf_indexKeyOf.
Qed.

Lemma append_neq_self (a b : string) : b <> "" -> a +' b <> a.
Proof.
  intros Hb Heq.
  apply (f_equal String.length) in Heq.
  rewrite length_append in Heq.
  destruct b; [now apply Hb | simpl in Heq; lia].
Qed.

(** The revision key is never the index key. *)
Lemma revisionKeyOf_neq_indexKeyOf (o : Options) :
  revisionKeyOf o <> indexKeyOf o.
Proof.
  rewrite revisionKeyOf_revisionPrefixOf, revisionPrefixOf_indexKeyOf.
  rewrite append_assoc.
  apply append_neq_self.
  discriminate.
Qed.

(** The sample of the specification, for a prefix with and without its
    trailing separator. *)
Example revision_key_samples :
  joinUriSegments "app/" ("index.html" +' ":" +' "abc123")
  = "app/index.html:abc123"
  /\ joinUriSegments "app" ("index.html" +' ":" +' "abc123")
     = "app/index.html:abc123"
  /\ substr (String.length (joinUriSegments "app/" ("index.html" +' ":")))
       "app/index.html:abc123"
     = "abc123"
  /\ substr (String.length (joinUriSegments "app" ("index.html" +' ":")))
       "app/index.html:abc123"
     = "abc123"
  /\ joinUriSegments "" ("index.html" +' ":" +' "abc123")
     = "index.html:abc123".
Proof. repeat split. Qed.

(** C7.  Key construction round trip: for every prefix, file pattern and
    revision identifier carried by the options, the prefix used for listing
    is the index key followed by a colon, the key built for upload is that
    prefix followed by the revision identifier, and the [substr] that
    [fetchRevisions] applies to such a key gives the revision identifier
    back. *)
Theorem revision_key_round_trip :
  forall (o : Options),
    revisionPrefixOf o = indexKeyOf o +' ":"
    /\ revisionKeyOf o = revisionPrefixOf o +' revisionKey o
    /\ String.prefix (revisionPrefixOf o) (revisionKeyOf o) = true
    /\ substr (String.length (revisionPrefixOf o)) (revisionKeyOf o)
       = revisionKey o
    /\ forall current lastModified etag,
         revision (toRevision (revisionPrefixOf o) current
                     {| Key := revisionKeyOf o;
                        LastModified := lastModified;
                        ETag := etag |})
         = revisionKey o.
Proof.
  intro o.
  pose proof (revisionKeyOf_revisionPrefixOf o) as Hkey.
  split; [apply revisionPrefixOf_indexKeyOf|].
  split; [exact Hkey|].
  split.
  - rewrite Hkey.
    generalize (revisionPrefixOf o) as p.
    induction p as [|c p IH]; simpl.
    + now destruct (revisionKey o).
    + destruct (ascii_dec c c) as [_|Hc]; [exact IH | now elim Hc].
  - split; [|intros current lastModified etag; simpl];
      rewrite Hkey; apply substr_length_append.
Qed.

(* ================================================================== *)
(** ** The simulated client *)

Lemma sameClient_refl (w : World) : sameClient w w.
Proof. repeat split. Qed.

Lemma sameClient_trans (w1 w2 w3 : World) :
  sameClient w1 w2 -> sameClient w2 w3 -> sameClient w1 w3.
Proof.
  unfold sameClient.
  intros (A1 & A2 & A3 & A4 & A5) (B1 & B2 & B3 & B4 & B5).
  repeat split; congruence.
Qed.

Lemma sameClient_issue (c : Call) (w : World) : sameClient w (issue c w).
Proof. repeat split. Qed.

Lemma sameClient_answered (w : World) : sameClient w (answered w).
Proof. repeat split. Qed.

Create HintDb client.
#[local] Hint Resolve sameClient_refl sameClient_issue sameClient_answered
  : client.

Lemma writes_app (l1 l2 : list Call) : writes (l1 ++ l2) = writes l1 ++ writes l2.
Proof. apply filter_app. Qed.

Lemma writtenKeys_app (l1 l2 : list Call) :
  writtenKeys (l1 ++ l2) = writtenKeys l1 ++ writtenKeys l2.
Proof. apply flat_map_app. Qed.

Lemma listMarkers_app (l1 l2 : list Call) :
  listMarkers (l1 ++ l2) = listMarkers l1 ++ listMarkers l2.
Proof. apply flat_map_app. Qed.

Lemma writes_listRequests (options : ListObjectsParams.t) markers :
  writes (listRequests options markers) = [].
Proof. induction markers; simpl; auto. Qed.

Lemma listMarkers_listRequests (options : ListObjectsParams.t) markers :
  listMarkers (listRequests options markers) = markers.
Proof.
  induction markers as [|m markers IH]; simpl; [reflexivity|].
  now f_equal.
Qed.

Lemma withMarker_own (options : ListObjectsParams.t) :
  withMarker options (ListObjectsParams.Marker options) = options.
Proof. now destruct options. Qed.

(** One request: the client records it and answers with the head of its
    script. *)
Lemma listObjects_answer (options : ListObjectsParams.t) (w : World) r rest :
  listObjectsReplies w = r :: rest ->
  listObjects options w
  = (denodeify r, answered (issue (ListObjectsCall options) w)).
Proof.
  intro Hs. unfold listObjects. now rewrite Hs.
Qed.

Lemma lastItem_None {A} (l : list A) : lastItem l = None -> l = [].
Proof.
  induction l as [|x l IH]; [reflexivity|].
  simpl. destruct l; [discriminate|].
  intro Hl. now specialize (IH Hl).
Qed.

Lemma getNextMarker_derivable (page : ListObjectsOutput) :
  markerDerivable page ->
  exists m, getNextMarker page = Normal m /\ followsPage page (Some m).
Proof.
  unfold markerDerivable, getNextMarker, followsPage.
  intros Hd.
  destruct (NextMarker page) as [[|c m]|] eqn:Hn; simpl.
  - destruct Hd as [Hd|Hd]; [now elim Hd|].
    destruct (lastItem (Contents page)) as [d|] eqn:Hl.
    + exists (Key d). split; [reflexivity|].
      split; [intros m Hm Hne; now inversion Hm; subst|].
      intros _. now exists d.
    + now apply lastItem_None in Hl.
  - exists (String c m). split; [reflexivity|].
    split; [intros m' Hm _; now inversion Hm | discriminate].
  - destruct Hd as [Hd|Hd]; [now elim Hd|].
    destruct (lastItem (Contents page)) as [d|] eqn:Hl.
    + exists (Key d). split; [reflexivity|].
      split; [discriminate|]. intros _. now exists d.
    + now apply lastItem_None in Hl.
Qed.

(* ================================================================== *)
(** ** Pagination *)

Lemma listRequests_setMarker (options : ListObjectsParams.t) m markers :
  listRequests (setMarker options m) markers = listRequests options markers.
Proof. reflexivity. Qed.

(** A script that starts with truncated pages followed by a page that is
    not truncated: the listing asks for each of them, one after the other,
    and stops there. *)
Lemma listObjectRecursively_pages :
  forall pages fuel options acc w lastPage rest,
    listObjectsReplies w = map Success pages ++ Success lastPage :: rest ->
    Forall truncatedPage pages ->
    IsTruncated lastPage = false ->
    length pages < fuel ->
    exists w' markers,
      listObjectRecursively fuel options acc w
      = (Resolved {| Last := lastPage;
                     All := acc ++ flat_map Contents pages
                                ++ Contents lastPage |}, w')
      /\ calls w'
         = calls w
             ++ listRequests options
                  (ListObjectsParams.Marker options :: markers)
      /\ Forall2 followsPage pages markers
      /\ listObjectsReplies w' = rest
      /\ sameClient w w'.
Proof.
  induction pages as [|page pages IH];
    intros fuel options acc w lastPage rest Hs Hpages Hlast Hfuel;
    (destruct fuel as [|fuel]; [simpl in Hfuel; lia|]);
    simpl in Hs; simpl listObjectRecursively; unfold andThen;
    rewrite (listObjects_answer options w Hs); simpl denodeify; cbv beta iota.
  - rewrite Hlast. unfold resolve.
    exists (answered (issue (ListObjectsCall options) w)), [].
    repeat split; simpl.
    + now rewrite withMarker_own.
    + constructor.
    + now rewrite Hs.
  - inversion Hpages as [|? ? [Htrunc Hderiv] Hrest]; subst.
    rewrite Htrunc.
    destruct (getNextMarker_derivable Hderiv) as (m & Hm & Hfollows).
    rewrite Hm.
    set (w1 := answered (issue (ListObjectsCall options) w)).
    assert (Hs1 : listObjectsReplies w1
                  = map Success pages ++ Success lastPage :: rest)
      by (simpl; now rewrite Hs).
    assert (Hfuel' : length pages < fuel) by (simpl in Hfuel; lia).
    destruct (IH fuel (setMarker options m) (acc ++ Contents page) w1
                lastPage rest Hs1 Hrest Hlast Hfuel')
      as (w' & markers & Hrun & Hcalls & Hmarkers & Hscript & Hclient).
    exists w', (Some m :: markers).
    split; [|split; [|split; [|split]]].
    + rewrite Hrun. simpl flat_map. now rewrite <- !app_assoc.
    + rewrite Hcalls, listRequests_setMarker. subst w1. simpl.
      now rewrite withMarker_own, <- app_assoc.
    + now constructor.
    + exact Hscript.
    + apply sameClient_trans with w1; [|exact Hclient].
      subst w1. repeat split.
Qed.

(** Whatever the script holds, a listing only issues [listObjects]
    requests, as many as it used replies or one more, and leaves the rest
    of the client alone. *)
Lemma listObjectRecursively_reads :
  forall fuel options acc w,
    exists markers,
      calls (snd (listObjectRecursively fuel options acc w))
      = calls w ++ listRequests options markers
      /\ sameClient w (snd (listObjectRecursively fuel options acc w)).
Proof.
  induction fuel as [|fuel IH]; intros options acc w.
  - exists []. simpl. rewrite app_nil_r. auto with client.
  - simpl listObjectRecursively. unfold andThen, listObjects.
    destruct (listObjectsReplies w) as [|[err|page] rest] eqn:Hs; simpl.
    + exists [ListObjectsParams.Marker options]. simpl.
      rewrite withMarker_own. auto with client.
    + exists [ListObjectsParams.Marker options]. simpl.
      rewrite withMarker_own. split; [reflexivity | repeat split].
    + set (w1 := answered (issue (ListObjectsCall options) w)).
      assert (Hw1 : calls w1 = calls w ++ [ListObjectsCall options])
        by reflexivity.
      assert (Hc1 : sameClient w w1) by (subst w1; repeat split).
      destruct (IsTruncated page).
      * destruct (getNextMarker page) as [m|exn].
        -- destruct (IH (setMarker options m) (acc ++ Contents page) w1)
             as (markers & Hcalls & Hclient).
           exists (ListObjectsParams.Marker options :: markers).
           rewrite Hcalls, Hw1, listRequests_setMarker. simpl.
           rewrite withMarker_own, <- app_assoc.
           split; [reflexivity|].
           now apply sameClient_trans with w1.
        -- exists [ListObjectsParams.Marker options]. simpl.
           rewrite withMarker_own. now split.
      * exists [ListObjectsParams.Marker options]. simpl.
        rewrite withMarker_own. now split.
Qed.

(** A listing that resolved went through truncated pages, each with a
    marker to go on from, up to a page that was not truncated. *)
Lemma listObjectRecursively_resolved :
  forall fuel options acc w result w',
    listObjectRecursively fuel options acc w = (Resolved result, w') ->
    exists pages,
      listObjectsReplies w
      = map Success pages ++ Success (Last result) :: listObjectsReplies w'
      /\ Forall truncatedPage pages
      /\ IsTruncated (Last result) = false
      /\ All result
         = acc ++ flat_map Contents pages ++ Contents (Last result).
Proof.
  induction fuel as [|fuel IH]; intros options acc w result w' Hrun.
  - discriminate.
  - simpl in Hrun. unfold andThen, listObjects in Hrun.
    destruct (listObjectsReplies w) as [|[err|page] rest] eqn:Hs;
      simpl in Hrun; try discriminate.
    destruct (IsTruncated page) eqn:Htrunc.
    + destruct (getNextMarker page) as [m|exn] eqn:Hm;
        [|discriminate].
      apply IH in Hrun.
      destruct Hrun as (pages & Hscript & Hpages & Hlast & Hall).
      exists (page :: pages).
      simpl in Hscript. rewrite Hs in Hscript. simpl in Hscript.
      split; [simpl; now rewrite Hscript|].
      split; [|split; [exact Hlast|]].
      * constructor; [|exact Hpages].
        split; [exact Htrunc|].
        unfold markerDerivable. unfold getNextMarker in Hm.
        destruct (truthyString (NextMarker page)); [left; discriminate|].
        right. intro Hc. rewrite Hc in Hm. discriminate.
      * rewrite Hall. simpl. now rewrite <- !app_assoc.
    + inversion Hrun; subst; clear Hrun. simpl.
      exists []. simpl. rewrite Hs. auto.
Qed.

(** A truncated page without a marker and without items: reading the key
    of its last item throws. *)
Lemma getNextMarker_throws (page : ListObjectsOutput) :
  truthyString (NextMarker page) = None ->
  Contents page = [] ->
  exists msg, getNextMarker page = Throw (TypeError msg).
Proof.
  intros Hn Hc. unfold getNextMarker. rewrite Hn, Hc. simpl. eauto.
Qed.

Lemma listObjectRecursively_throws :
  forall pages fuel options acc w page rest,
    listObjectsReplies w = map Success pages ++ Success page :: rest ->
    Forall truncatedPage pages ->
    IsTruncated page = true ->
    truthyString (NextMarker page) = None ->
    Contents page = [] ->
    length pages < fuel ->
    exists w' msg markers,
      listObjectRecursively fuel options acc w
      = (Rejected (TypeError msg), w')
      /\ calls w'
         = calls w
             ++ listRequests options
                  (ListObjectsParams.Marker options :: markers)
      /\ length markers = length pages
      /\ listObjectsReplies w' = rest.
Proof.
  induction pages as [|first pages IH];
    intros fuel options acc w page rest Hs Hpages Htrunc Hnone Hempty Hfuel;
    (destruct fuel as [|fuel]; [simpl in Hfuel; lia|]);
    simpl in Hs; simpl listObjectRecursively; unfold andThen;
    rewrite (listObjects_answer options w Hs); simpl denodeify; cbv beta iota.
  - rewrite Htrunc.
    destruct (getNextMarker_throws page Hnone Hempty) as (msg & Hthrow).
    rewrite Hthrow. unfold reject.
    exists (answered (issue (ListObjectsCall options) w)), msg, [].
    repeat split; simpl.
    + now rewrite withMarker_own.
    + now rewrite Hs.
  - inversion Hpages as [|? ? [Hfirst Hderiv] Hrest]; subst.
    rewrite Hfirst.
    destruct (getNextMarker_derivable Hderiv) as (m & Hm & _).
    rewrite Hm.
    set (w1 := answered (issue (ListObjectsCall options) w)).
    assert (Hs1 : listObjectsReplies w1
                  = map Success pages ++ Success page :: rest)
      by (simpl; now rewrite Hs).
    assert (Hfuel' : length pages < fuel) by (simpl in Hfuel; lia).
    destruct (IH fuel (setMarker options m) (acc ++ Contents first) w1
                page rest Hs1 Hrest Htrunc Hnone Hempty Hfuel')
      as (w' & msg & markers & Hrun & Hcalls & Hlen & Hscript).
    exists w', msg, (Some m :: markers).
    split; [exact Hrun|]. split; [|split; [simpl; now rewrite Hlen|exact Hscript]].
    rewrite Hcalls, listRequests_setMarker. subst w1. simpl.
    now rewrite withMarker_own, <- app_assoc.
Qed.

(* ================================================================== *)
(** ** Sorting by [LastModified] *)

Lemma insertSorted_perm {A} (cmp : A -> A -> option Z) (x : A) (l : list A) :
  Permutation (insertSorted cmp x l) (x :: l).
Proof.
  induction l as [|y l IH]; simpl; [apply Permutation_refl|].
  destruct (sortCompare cmp x y <=? 0)%Z; [apply Permutation_refl|].
  eapply Permutation_trans; [apply perm_skip, IH | apply perm_swap].
Qed.

Lemma sort_perm {A} (cmp : A -> A -> option Z) (l : list A) :
  Permutation (sort cmp l) l.
Proof.
  induction l as [|x l IH]; simpl; [constructor|].
  eapply Permutation_trans; [apply insertSorted_perm | now apply perm_skip].
Qed.

(** On valid dates the comparator is the difference of the time values. *)
Lemma sortCompare_byLastModified (x y : S3Object) :
  validDate x -> validDate y ->
  sortCompare byLastModified x y = (LastModified y - LastModified x)%Z.
Proof.
  unfold validDate, sortCompare, byLastModified, newDate.
  intros Hx Hy. now rewrite Hx, Hy.
Qed.

Lemma insertSorted_newerFirst (x : S3Object) (l : list S3Object) :
  validDate x ->
  Forall validDate l ->
  StronglySorted newerFirst l ->
  StronglySorted newerFirst (insertSorted byLastModified x l).
Proof.
  intros Hx Hvalid Hsorted. revert Hvalid.
  induction Hsorted as [|y l Hl IH Hy]; simpl; intro Hvalid.
  - repeat constructor.
  - inversion Hvalid as [|? ? Hvy Hvl]; subst.
    rewrite (sortCompare_byLastModified Hx Hvy).
    destruct (LastModified y - LastModified x <=? 0)%Z eqn:Hcmp.
    + apply Z.leb_le in Hcmp.
      constructor; [now constructor|].
      constructor; [unfold newerFirst; lia|].
      eapply Forall_impl; [|exact Hy].
      unfold newerFirst. intros; lia.
    + apply Z.leb_gt in Hcmp.
      constructor; [now apply IH|].
      eapply Permutation_Forall;
        [apply Permutation_sym, insertSorted_perm|].
      constructor; [unfold newerFirst; lia | exact Hy].
Qed.

Lemma sort_newerFirst (l : list S3Object) :
  Forall validDate l ->
  StronglySorted newerFirst (sort byLastModified l).
Proof.
  induction l as [|x l IH]; simpl; intro Hvalid; [constructor|].
  inversion Hvalid as [|? ? Hx Hl]; subst.
  apply insertSorted_newerFirst; [exact Hx | | now apply IH].
  eapply Permutation_Forall; [apply Permutation_sym, sort_perm | exact Hl].
Qed.

Lemma StronglySorted_map {A B} (f : A -> B) (R : A -> A -> Prop)
  (Q : B -> B -> Prop) (l : list A) :
  (forall a b, R a b -> Q (f a) (f b)) ->
  StronglySorted R l -> StronglySorted Q (map f l).
Proof.
  intros Hf. induction 1 as [|x l Hl IH Hx]; simpl; constructor; auto.
  apply Forall_map. eapply Forall_impl; [|exact Hx]. auto.
Qed.

(* ================================================================== *)
(** ** The revision ledger *)

Lemma headObject_world (params : HeadObjectParams.t) (w : World) :
  snd (headObject params w) = issue (HeadObjectCall params) w.
Proof.
  unfold headObject.
  destruct (headObjectReply w params) as [err|data]; [|reflexivity].
  now destruct (String.eqb (code err) "NotFound").
Qed.

(** [fetchRevisions] only reads: it issues the listing requests and the
    probe of the index key. *)
Lemma fetchRevisions_reads (fuel : nat) (o : Options) (w : World) :
  exists issued,
    calls (snd (fetchRevisions fuel o w)) = calls w ++ issued
    /\ writes issued = []
    /\ sameClient w (snd (fetchRevisions fuel o w)).
Proof.
  unfold fetchRevisions, andThen, hash, listAllObjects.
  fold (listingParams o). fold (probeParams o).
  destruct (listObjectRecursively_reads fuel (listingParams o) [] w)
    as (markers & Hcalls & Hclient).
  destruct (listObjectRecursively fuel (listingParams o) [] w) as [ra w1].
  simpl in Hcalls, Hclient.
  pose proof (headObject_world (probeParams o) w1) as Hhead.
  destruct (headObject (probeParams o) w1) as [rb w2].
  simpl in Hhead. subst w2.
  exists (listRequests (listingParams o) markers
          ++ [HeadObjectCall (probeParams o)]).
  assert (Hsnd : forall r : Settled (list Revision) * World,
             snd r = issue (HeadObjectCall (probeParams o)) w1 ->
             calls (snd r)
             = calls w ++ listRequests (listingParams o) markers
                 ++ [HeadObjectCall (probeParams o)]
             /\ writes (listRequests (listingParams o) markers
                        ++ [HeadObjectCall (probeParams o)]) = []
             /\ sameClient w (snd r)).
  { intros r Hr. rewrite Hr. simpl. rewrite Hcalls, <- app_assoc.
    split; [reflexivity|]. split.
    - now rewrite writes_app, writes_listRequests.
    - apply sameClient_trans with w1; auto with client. }
  apply Hsnd.
  destruct ra, rb; reflexivity.
Qed.

(** A ledger that was returned comes from a listing and a probe that both
    resolved. *)
Lemma fetchRevisions_resolved (fuel : nat) (o : Options) (w w' : World)
  (revisions : list Revision) :
  fetchRevisions fuel o w = (Resolved revisions, w') ->
  exists listing w1 current,
    listAllObjects fuel (listingParams o) w = (Resolved listing, w1)
    /\ headObject (probeParams o) w1 = (Resolved current, w')
    /\ sameClient w w1
    /\ revisions
       = map (toRevision (revisionPrefixOf o) current)
           (sort byLastModified (All listing)).
Proof.
  unfold fetchRevisions, andThen, hash.
  fold (listingParams o). fold (probeParams o).
  intro Hrun.
  destruct (listObjectRecursively_reads fuel (listingParams o) [] w)
    as (markers & _ & Hclient).
  fold (listAllObjects fuel (listingParams o)) in Hclient.
  destruct (listAllObjects fuel (listingParams o) w) as [ra w1].
  destruct (headObject (probeParams o) w1) as [rb w2] eqn:Hhead.
  destruct ra as [listing|r|]; destruct rb as [current|r'|];
    try discriminate.
  unfold resolve in Hrun. inversion Hrun; subst; clear Hrun.
  exists listing, w1, current. simpl in Hclient. auto.
Qed.

(** The ledger is returned whenever the listing comes to its end within
    the pages allowed and the probe does not fail for another reason than
    the index object being absent. *)
Lemma fetchRevisions_resolves (fuel : nat) (o : Options) (w : World)
  (pages : list ListObjectsOutput) (lastPage : ListObjectsOutput)
  (rest : list (Reply ListObjectsOutput)) :
  listObjectsReplies w = map Success pages ++ Success lastPage :: rest ->
  Forall truncatedPage pages ->
  IsTruncated lastPage = false ->
  length pages < fuel ->
  (forall err,
      headObjectReply w (probeParams o) = Failure err ->
      code err = "NotFound") ->
  exists revisions w', fetchRevisions fuel o w = (Resolved revisions, w').
Proof.
  intros Hs Hpages Hlast Hfuel Hprobe.
  destruct (@listObjectRecursively_pages pages fuel (listingParams o) [] w
              lastPage rest Hs Hpages Hlast Hfuel)
    as (w1 & markers & Hrun & _ & _ & _ & Hclient).
  unfold fetchRevisions, andThen, hash, listAllObjects.
  fold (listingParams o). fold (probeParams o).
  rewrite Hrun. unfold headObject.
  destruct Hclient as (Hreply & _). rewrite Hreply.
  destruct (headObjectReply w (probeParams o)) as [err|data] eqn:Hhead.
  - rewrite (Hprobe err eq_refl). simpl. unfold resolve. eauto.
  - simpl. unfold resolve. eauto.
Qed.

(** The probe resolves with an object exactly when the client answers with
    data. *)
Lemma headObject_resolved (params : HeadObjectParams.t) (w w' : World)
  (current : option HeadObjectOutput) :
  headObject params w = (Resolved current, w') ->
  match current with
  | Some c => headObjectReply w params = Success c
  | None => exists err, headObjectReply w params = Failure err
                        /\ code err = "NotFound"
  end.
Proof.
  unfold headObject.
  destruct (headObjectReply w params) as [err|data].
  - destruct (String.eqb (code err) "NotFound") eqn:Hcode; [|discriminate].
    intro H. inversion H; subst. exists err.
    split; [reflexivity | now apply String.eqb_eq].
  - intro H. now inversion H; subst.
Qed.

(* ================================================================== *)
(** ** Claims about [listAllObjects] *)

(** C3, as the code has it.  Pagination: when the client's script starts
    with truncated pages, each of which names a marker or has a last item,
    followed by a page that is not truncated, [listAllObjects] asks for
    exactly these pages one after the other, leaves the rest of the script
    unread, and resolves with the last response and, in [All], the items of
    all pages in request order.  The first request carries the caller's
    marker; the request after a page carries that page's explicit marker
    when it has one (a non-empty string), else the key of the page's last
    item. *)
Theorem listAllObjects_paginates :
  forall fuel options w pages lastPage rest,
    listObjectsReplies w = map Success pages ++ Success lastPage :: rest ->
    Forall truncatedPage pages ->
    IsTruncated lastPage = false ->
    length pages < fuel ->
    exists w' markers,
      listAllObjects fuel options w
      = (Resolved {| Last := lastPage;
                     All := flat_map Contents (pages ++ [lastPage]) |}, w')
      /\ calls w'
         = calls w
             ++ listRequests options
                  (ListObjectsParams.Marker options :: markers)
      /\ Forall2 followsPage pages markers
      /\ listObjectsReplies w' = rest.
Proof.
  intros fuel options w pages lastPage rest Hs Hpages Hlast Hfuel.
  destruct (@listObjectRecursively_pages pages fuel options [] w lastPage
              rest Hs Hpages Hlast Hfuel)
    as (w' & markers & Hrun & Hcalls & Hmarkers & Hscript & _).
  exists w', markers.
  unfold listAllObjects. rewrite Hrun.
  rewrite flat_map_app. simpl. rewrite app_nil_r.
  auto.
Qed.

Lemma threePages_truncated : Forall truncatedPage threePages.
Proof.
  unfold threePages.
  repeat (apply Forall_cons; [split; [reflexivity | right; discriminate]|]).
  apply Forall_nil.
Defined.

Lemma listAllObjects_paginates_witness :
  (listObjectsReplies fourPageClient
   = map Success threePages ++ Success fourthPage :: []
   /\ Forall truncatedPage threePages
   /\ IsTruncated fourthPage = false
   /\ length threePages < 4)
  /\ exists w' markers,
       listAllObjects 4 (listingParams (sampleOptions "r11" false))
         fourPageClient
       = (Resolved {| Last := fourthPage;
                      All := flat_map Contents (threePages ++ [fourthPage]) |},
          w')
       /\ calls w'
          = calls fourPageClient
              ++ listRequests (listingParams (sampleOptions "r11" false))
                   (None :: markers)
       /\ Forall2 followsPage threePages markers
       /\ listObjectsReplies w' = [].
Proof.
  assert (H4 : length threePages < 4) by (simpl; lia).
  split.
  - split; [reflexivity|]. split; [exact threePages_truncated|].
    split; [reflexivity | exact H4].
  - exact (@listAllObjects_paginates 4
             (listingParams (sampleOptions "r11" false))
             fourPageClient threePages fourthPage [] eq_refl
             threePages_truncated eq_refl H4).
Defined.

(** C3, as stated, fails on a sequence of responses whose first page is
    truncated, has no items and names no marker: the listing is rejected
    after one request, whatever the number of pages it is allowed, instead
    of going on to the page that is not truncated and returning the items
    of both. *)
Lemma listAllObjects_paginates_counterexample :
  listObjectsReplies emptyPageClient
  = [Success emptyTruncatedPage; Success fourthPage]
  /\ IsTruncated emptyTruncatedPage = true
  /\ IsTruncated fourthPage = false
  /\ fst (listAllObjects 2 (listingParams (sampleOptions "r11" false))
            emptyPageClient)
     = Rejected (TypeError "Cannot read property 'Key' of undefined")
  /\ listMarkers
       (calls (snd (listAllObjects 2
                      (listingParams (sampleOptions "r11" false))
                      emptyPageClient)))
     = [None]
  /\ forall fuel result,
       fst (listAllObjects fuel (listingParams (sampleOptions "r11" false))
              emptyPageClient)
       <> Resolved result.
Proof.
  repeat (split; [reflexivity|]).
  intros [|fuel] result; discriminate.
Qed.

(** The sample of the specification: pages of 3, 3, 3 and 1 items give the
    ten items in their original order, and the markers sent are the last
    key of the first page, the explicit marker of the second and the last
    key of the third. *)
Example listAllObjects_four_pages :
  let run := listAllObjects 4 (listingParams (sampleOptions "r11" false))
               fourPageClient in
  fst run
  = Resolved {| Last := fourthPage;
                All := map (fun n => sampleObject (fst n) (snd n)
                                       ("e" +' substr 1 (fst n)))
                         [("r01", 1); ("r02", 2); ("r03", 3); ("r04", 4);
                          ("r05", 5); ("r06", 6); ("r07", 7); ("r08", 8);
                          ("r09", 9); ("r10", 10)]%Z |}
  /\ listMarkers (calls (snd run))
     = [None; Some "app/index.html:r03"; Some "app/index.html:r06x";
        Some "app/index.html:r09"].
Proof. split; reflexivity. Qed.

(** C10.  The marker derivation is partial.  When the listing reaches a
    truncated page that has no marker and no items, [getNextMarker] reads
    the key of a last item that does not exist: the listing is rejected
    with the exception, after the request that brought this page and
    without a further one.  Conversely a listing that resolves has only met
    truncated pages that name a marker or have a last item. *)
Theorem listAllObjects_marker_partial :
  (forall fuel options w pages page rest,
      listObjectsReplies w = map Success pages ++ Success page :: rest ->
      Forall truncatedPage pages ->
      IsTruncated page = true ->
      truthyString (NextMarker page) = None ->
      Contents page = [] ->
      length pages < fuel ->
      exists w' msg markers,
        listAllObjects fuel options w = (Rejected (TypeError msg), w')
        /\ calls w'
           = calls w
               ++ listRequests options
                    (ListObjectsParams.Marker options :: markers)
        /\ length markers = length pages
        /\ listObjectsReplies w' = rest)
  /\ (forall fuel options w result w',
        listAllObjects fuel options w = (Resolved result, w') ->
        exists pages,
          listObjectsReplies w
          = map Success pages ++ Success (Last result)
              :: listObjectsReplies w'
          /\ Forall truncatedPage pages
          /\ IsTruncated (Last result) = false).
Proof.
  split.
  - intros fuel options w pages page rest Hs Hpages Htrunc Hnone Hempty Hfuel.
    unfold listAllObjects.
    exact (@listObjectRecursively_throws pages fuel options [] w page rest
             Hs Hpages Htrunc Hnone Hempty Hfuel).
  - intros fuel options w result w' Hrun.
    unfold listAllObjects in Hrun.
    apply listObjectRecursively_resolved in Hrun.
    destruct Hrun as (pages & Hs & Hpages & Hlast & _).
    now exists pages.
Qed.

Lemma listAllObjects_marker_partial_witness :
  (listObjectsReplies brokenListingClient
   = map Success threePages ++ Success emptyTruncatedPage :: []
   /\ Forall truncatedPage threePages
   /\ IsTruncated emptyTruncatedPage = true
   /\ truthyString (NextMarker emptyTruncatedPage) = None
   /\ Contents emptyTruncatedPage = []
   /\ length threePages < 4)
  /\ exists w' msg markers,
       listAllObjects 4 (listingParams (sampleOptions "r11" false))
         brokenListingClient
       = (Rejected (TypeError msg), w')
       /\ calls w'
          = calls brokenListingClient
              ++ listRequests (listingParams (sampleOptions "r11" false))
                   (None :: markers)
       /\ length markers = length threePages
       /\ listObjectsReplies w' = [].
Proof.
  assert (H4 : length threePages < 4) by (simpl; lia).
  split.
  - split; [reflexivity|]. split; [exact threePages_truncated|].
    repeat (split; [reflexivity|]). exact H4.
  - exact (proj1 listAllObjects_marker_partial 4
             (listingParams (sampleOptions "r11" false))
             brokenListingClient threePages emptyTruncatedPage []
             eq_refl threePages_truncated eq_refl eq_refl eq_refl H4).
Defined.

(* ================================================================== *)
(** ** Claims about [fetchRevisions] *)

Lemma Forall2_map_right {A B} (P : A -> B -> Prop) (f : A -> B) (l : list A) :
  (forall a, P a (f a)) -> Forall2 P l (map f l).
Proof.
  intro Hf. induction l; simpl; constructor; auto.
Qed.

Lemma activeRevisions_map (p : string) (current : option HeadObjectOutput)
  (l : list S3Object) :
  activeRevisions (map (toRevision p current) l)
  = map (toRevision p current) (filter (matchesCurrent current) l).
Proof.
  unfold activeRevisions.
  induction l as [|d l IH]; simpl; [reflexivity|].
  rewrite IH.
  destruct current as [c|]; simpl; [|reflexivity].
  now destruct (String.eqb (ETag d) (HeadETag c)).
Qed.

Lemma filter_matchesCurrent_None (l : list S3Object) :
  filter (matchesCurrent None) l = [].
Proof. induction l; simpl; auto. Qed.

Lemma recordOf_toRevision (o : Options) (w w1 w' : World)
  (current : option HeadObjectOutput) (d : S3Object) :
  sameClient w w1 ->
  headObject (probeParams o) w1 = (Resolved current, w') ->
  recordOf o w d (toRevision (revisionPrefixOf o) current d).
Proof.
  intros Hclient Hhead.
  apply headObject_resolved in Hhead.
  destruct Hclient as (Hreply & _). rewrite Hreply in Hhead.
  unfold recordOf. simpl.
  split; [reflexivity|]. split; [reflexivity|].
  destruct current as [c|]; simpl.
  - rewrite String.eqb_eq. split.
    + intro He. now exists c.
    + intros (c' & Hc' & He). rewrite Hhead in Hc'.
      now inversion Hc'; subst.
  - destruct Hhead as (err & Herr & _).
    split; [discriminate|].
    intros (c & Hc & _). rewrite Herr in Hc. discriminate.
Qed.

(** C4.  Active detection: a ledger that [fetchRevisions] returns has one
    record per listed object, and the record of an object is active if and
    only if the probe of the index key answered with an object whose ETag
    equals the listed object's ETag.  When the probe found no object at the
    index key, no record is active. *)
Theorem fetchRevisions_active_iff :
  forall fuel o w revisions w',
    fetchRevisions fuel o w = (Resolved revisions, w') ->
    exists listing w1 sorted,
      listAllObjects fuel (listingParams o) w = (Resolved listing, w1)
      /\ Permutation sorted (All listing)
      /\ Forall2 (recordOf o w) sorted revisions
      /\ ((forall c, headObjectReply w (probeParams o) <> Success c) ->
          activeRevisions revisions = []).
Proof.
  intros fuel o w revisions w' Hrun.
  apply fetchRevisions_resolved in Hrun.
  destruct Hrun as (listing & w1 & current & Hlist & Hhead & Hclient & Hrevs).
  exists listing, w1, (sort byLastModified (All listing)).
  split; [exact Hlist|]. split; [apply sort_perm|]. subst revisions. split.
  - apply Forall2_map_right. intro d.
    now apply recordOf_toRevision with w1 w'.
  - intro Hnone. rewrite activeRevisions_map.
    destruct current as [c|].
    + apply headObject_resolved in Hhead.
      destruct Hclient as (Hreply & _). rewrite Hreply in Hhead.
      now elim (Hnone c).
    + now rewrite filter_matchesCurrent_None.
Qed.

Lemma fetchRevisions_active_iff_witness :
  fetchRevisions 1 (sampleOptions "2" false) ledgerClient
  = (Resolved sampleLedger,
     snd (fetchRevisions 1 (sampleOptions "2" false) ledgerClient))
  /\ exists listing w1 sorted,
       listAllObjects 1 (listingParams (sampleOptions "2" false)) ledgerClient
       = (Resolved listing, w1)
       /\ Permutation sorted (All listing)
       /\ Forall2 (recordOf (sampleOptions "2" false) ledgerClient) sorted
            sampleLedger
       /\ ((forall c,
              headObjectReply ledgerClient
                (probeParams (sampleOptions "2" false)) <> Success c) ->
           activeRevisions sampleLedger = []).
Proof.
  split; [reflexivity|].
  exact (@fetchRevisions_active_iff 1 (sampleOptions "2" false) ledgerClient
           sampleLedger _ eq_refl).
Defined.

(** The samples of the specification: with the index object a copy of
    revision 2, exactly the record of revision 2 is active; with no object
    at the index key, none is. *)
Example fetchRevisions_active_samples :
  fst (fetchRevisions 1 (sampleOptions "2" false) ledgerClient)
  = Resolved sampleLedger
  /\ activeRevisions sampleLedger = [sampleRevision "2" 200 true]
  /\ fst (fetchRevisions 1 (sampleOptions "2" false) freshClient)
     = Resolved
         [ {| revision := "3"; timestamp := 300; active := JsUndefined |};
           {| revision := "2"; timestamp := 200; active := JsUndefined |};
           {| revision := "1"; timestamp := 100; active := JsUndefined |} ].
Proof. repeat split. Qed.

(** C5.  Ledger ordering: the listed objects carrying valid dates, the
    records that [fetchRevisions] returns are in descending order of
    timestamp, newest first, and their timestamps are those of the listed
    objects. *)
Theorem fetchRevisions_newest_first :
  forall fuel o w revisions w' listing w1,
    fetchRevisions fuel o w = (Resolved revisions, w') ->
    listAllObjects fuel (listingParams o) w = (Resolved listing, w1) ->
    Forall validDate (All listing) ->
    StronglySorted newerFirstRevision revisions
    /\ Permutation (map timestamp revisions)
         (map LastModified (All listing)).
Proof.
  intros fuel o w revisions w' listing w1 Hrun Hlist Hvalid.
  apply fetchRevisions_resolved in Hrun.
  destruct Hrun as (listing' & w1' & current & Hlist' & _ & _ & Hrevs).
  rewrite Hlist in Hlist'. inversion Hlist'; subst listing' w1'. clear Hlist'.
  subst revisions. split.
  - apply StronglySorted_map with (R := newerFirst);
      [auto | now apply sort_newerFirst].
  - rewrite map_map. simpl.
    apply Permutation_map, sort_perm.
Qed.

Lemma threeRevisions_valid : Forall validDate threeRevisions.
Proof. repeat constructor. Defined.

Lemma fetchRevisions_newest_first_witness :
  (fetchRevisions 1 (sampleOptions "2" false) ledgerClient
   = (Resolved sampleLedger,
      snd (fetchRevisions 1 (sampleOptions "2" false) ledgerClient))
   /\ listAllObjects 1 (listingParams (sampleOptions "2" false)) ledgerClient
      = (Resolved {| Last := samplePage threeRevisions false None;
                     All := threeRevisions |},
         snd (listAllObjects 1 (listingParams (sampleOptions "2" false))
                ledgerClient))
   /\ Forall validDate threeRevisions)
  /\ StronglySorted newerFirstRevision sampleLedger
  /\ Permutation (map timestamp sampleLedger)
       (map LastModified threeRevisions).
Proof.
  split; [repeat split; exact threeRevisions_valid|].
  exact (@fetchRevisions_newest_first 1 (sampleOptions "2" false) ledgerClient
           sampleLedger _
           {| Last := samplePage threeRevisions false None;
              All := threeRevisions |} _ eq_refl eq_refl
           threeRevisions_valid).
Defined.

(** Objects with valid timestamps T1 < T2 < T3, listed in any order, are
    sorted into T3, T2, T1. *)
Lemma sort_three_timestamps (d1 d2 d3 : S3Object) (l : list S3Object) :
  validDate d1 -> validDate d2 -> validDate d3 ->
  (LastModified d1 < LastModified d2)%Z ->
  (LastModified d2 < LastModified d3)%Z ->
  In l [[d1; d2; d3]; [d1; d3; d2]; [d2; d1; d3];
        [d2; d3; d1]; [d3; d1; d2]; [d3; d2; d1]] ->
  sort byLastModified l = [d3; d2; d1].
Proof.
  intros V1 V2 V3 H12 H23 Hl. simpl in Hl.
  repeat (destruct Hl as [Hl|Hl]; [subst l|]); [..|contradiction];
    simpl;
    repeat (rewrite ?sortCompare_byLastModified by assumption;
            match goal with
            | |- context [(?a <=? ?b)%Z] =>
                destruct (Z.leb_spec a b); try lia; simpl
            end);
    reflexivity.
Qed.

(** A timestamp outside the range of dates makes the comparator [NaN]:
    the sort then leaves the two objects in the order of the listing, also
    when that puts the older one first. *)
Example sort_invalid_date :
  sort byLastModified
    [sampleObject "old" 100 "e1"; sampleObject "far" 9000000000000000 "e2"]
  = [sampleObject "old" 100 "e1"; sampleObject "far" 9000000000000000 "e2"]
  /\ sort byLastModified
       [sampleObject "old" 100 "e1"; sampleObject "new" 200 "e2"]
     = [sampleObject "new" 200 "e2"; sampleObject "old" 100 "e1"].
Proof. split; reflexivity. Qed.

(* ------------------------------------------------------------------ *)
(** *** At most one active record *)

Lemma filter_NoDup_le_1 (v : string) (l : list S3Object) :
  NoDup (map ETag l) ->
  length (filter (fun d => String.eqb (ETag d) v) l) <= 1.
Proof.
  induction l as [|d l IH]; simpl; intro Hnd; [lia|].
  inversion Hnd as [|? ? Hnotin Hnd']; subst.
  destruct (String.eqb_spec (ETag d) v) as [He|Hne]; [|auto].
  simpl.
  assert (Hnil : filter (fun d0 => String.eqb (ETag d0) v) l = []).
  { clear IH Hnd Hnd'. subst v.
    induction l as [|x l IHl]; simpl; [reflexivity|].
    destruct (String.eqb_spec (ETag x) (ETag d)) as [Hx|Hx].
    - elim Hnotin. simpl. now left.
    - apply IHl. intro Hin. apply Hnotin. simpl. now right. }
  rewrite Hnil. simpl. lia.
Qed.

Lemma Permutation_filter_length {A} (f : A -> bool) (l l' : list A) :
  Permutation l l' -> length (filter f l) = length (filter f l').
Proof.
  induction 1 as [|x l l' _ IH|x y l|l l' l'' _ IH1 _ IH2]; simpl.
  - reflexivity.
  - destruct (f x); simpl; now rewrite IH.
  - destruct (f x), (f y); reflexivity.
  - now rewrite IH1.
Qed.

(** C6, as the code has it.  In a ledger that [fetchRevisions] returns,
    the active records are exactly the records of the listed objects whose
    ETag equals the ETag of the object at the index key: there are as many
    of them as there are such objects, none when no object is at the index
    key, and at most one when the listed objects have pairwise different
    ETags. *)
Theorem fetchRevisions_active_unique :
  forall fuel o w revisions w' listing w1,
    fetchRevisions fuel o w = (Resolved revisions, w') ->
    listAllObjects fuel (listingParams o) w = (Resolved listing, w1) ->
    (forall r,
        In r (activeRevisions revisions) <->
        exists d c,
          In d (All listing)
          /\ headObjectReply w (probeParams o) = Success c
          /\ ETag d = HeadETag c
          /\ r = toRevision (revisionPrefixOf o) (Some c) d)
    /\ (forall c,
          headObjectReply w (probeParams o) = Success c ->
          length (activeRevisions revisions)
          = length (filter (fun d => String.eqb (ETag d) (HeadETag c))
                      (All listing)))
    /\ ((forall c, headObjectReply w (probeParams o) <> Success c) ->
        activeRevisions revisions = [])
    /\ (NoDup (map ETag (All listing)) ->
        length (activeRevisions revisions) <= 1).
Proof.
  intros fuel o w revisions w' listing w1 Hrun Hlist.
  apply fetchRevisions_resolved in Hrun.
  destruct Hrun
    as (listing' & w1' & current & Hlist' & Hhead & Hclient & Hrevs).
  rewrite Hlist in Hlist'. inversion Hlist'; subst listing' w1'. clear Hlist'.
  subst revisions. rewrite activeRevisions_map.
  apply headObject_resolved in Hhead.
  destruct Hclient as (Hreply & _). rewrite Hreply in Hhead.
  pose proof (sort_perm byLastModified (All listing)) as Hperm.
  destruct current as [c|].
  - split; [|split; [|split]].
    + intro r. rewrite in_map_iff. split.
      * intros (d & Hd & Hin). apply filter_In in Hin.
        destruct Hin as (Hin & Hmatch). simpl in Hmatch.
        apply String.eqb_eq in Hmatch.
        exists d, c. repeat split; auto.
        eapply Permutation_in; [exact Hperm | exact Hin].
      * intros (d & c' & Hin & Hc' & Hetag & Hr).
        rewrite Hhead in Hc'. inversion Hc'; subst c'. clear Hc'.
        exists d. split; [now symmetry|].
        apply filter_In. split.
        -- eapply Permutation_in; [apply Permutation_sym, Hperm | exact Hin].
        -- simpl. now apply String.eqb_eq.
    + intros c' Hc'. rewrite Hhead in Hc'. inversion Hc'; subst c'.
      rewrite length_map. now apply Permutation_filter_length.
    + intro Hnone. now elim (Hnone c).
    + intro Hnd. rewrite length_map. apply filter_NoDup_le_1.
      eapply Permutation_NoDup; [|exact Hnd].
      apply Permutation_map, Permutation_sym, Hperm.
  - rewrite filter_matchesCurrent_None. simpl.
    destruct Hhead as (err & Herr & _).
    split; [|split; [|split]].
    + intro r. split; [contradiction|].
      intros (d & c & _ & Hc & _). rewrite Herr in Hc. discriminate.
    + intros c Hc. rewrite Herr in Hc. discriminate.
    + reflexivity.
    + intros _. lia.
Qed.

Lemma fetchRevisions_active_unique_witness :
  (fetchRevisions 1 (sampleOptions "2" false) ledgerClient
   = (Resolved sampleLedger,
      snd (fetchRevisions 1 (sampleOptions "2" false) ledgerClient))
   /\ listAllObjects 1 (listingParams (sampleOptions "2" false)) ledgerClient
      = (Resolved {| Last := samplePage threeRevisions false None;
                     All := threeRevisions |},
         snd (listAllObjects 1 (listingParams (sampleOptions "2" false))
                ledgerClient))
   /\ NoDup (map ETag threeRevisions))
  /\ (forall r,
         In r (activeRevisions sampleLedger) <->
         exists d c,
           In d threeRevisions
           /\ headObjectReply ledgerClient
                (probeParams (sampleOptions "2" false)) = Success c
           /\ ETag d = HeadETag c
           /\ r = toRevision (revisionPrefixOf (sampleOptions "2" false))
                    (Some c) d)
  /\ length (activeRevisions sampleLedger)
     = length (filter (fun d => String.eqb (ETag d) "e2") threeRevisions)
  /\ length (activeRevisions sampleLedger) <= 1.
Proof.
  assert (Hnd : NoDup (map ETag threeRevisions)).
  { simpl. repeat constructor; simpl; intuition discriminate. }
  pose proof (@fetchRevisions_active_unique 1 (sampleOptions "2" false)
                ledgerClient sampleLedger _
                {| Last := samplePage threeRevisions false None;
                   All := threeRevisions |} _ eq_refl eq_refl)
    as (Hexact & Hcount & _ & Hone).
  split; [repeat split; exact Hnd|].
  split; [exact Hexact|].
  split; [exact (Hcount {| HeadETag := "e2"; HeadLastModified := 400 |}
                   eq_refl)
         | exact (Hone Hnd)].
Defined.

(** C6, as stated, fails: two revisions uploaded with the same content
    have the same ETag, and once one of them is activated both records are
    active. *)
Lemma fetchRevisions_two_active :
  fetchRevisions 1 (sampleOptions "2" false) twinClient
  = (Resolved twinLedger,
     snd (fetchRevisions 1 (sampleOptions "2" false) twinClient))
  /\ length (activeRevisions twinLedger) = 2
  /\ ~ (forall fuel o w revisions w',
          fetchRevisions fuel o w = (Resolved revisions, w') ->
          length (activeRevisions revisions) <= 1).
Proof.
  split; [reflexivity|]. split; [reflexivity|].
  intro Hclaim.
  specialize (Hclaim 1 (sampleOptions "2" false) twinClient twinLedger _
                eq_refl).
  simpl in Hclaim. lia.
Qed.

(* ================================================================== *)
(** ** The probe of the index key *)

(** C8.  [headObject] resolves to nothing exactly when the client reports
    an error whose code is [NotFound]; it resolves to the metadata when the
    client answers with data; it rejects with the client's error for every
    other error.  A rejection therefore never stems from the not-found
    code, and the promise is always settled. *)
Theorem headObject_not_found_is_empty :
  forall params w,
    (fst (headObject params w) = Resolved None <->
     exists err, headObjectReply w params = Failure err
                 /\ code err = "NotFound")
    /\ (forall data,
          headObjectReply w params = Success data ->
          fst (headObject params w) = Resolved (Some data))
    /\ (forall err,
          headObjectReply w params = Failure err ->
          code err <> "NotFound" ->
          fst (headObject params w) = Rejected (ClientError err))
    /\ (forall reason,
          fst (headObject params w) = Rejected reason ->
          exists err, headObjectReply w params = Failure err
                      /\ code err <> "NotFound"
                      /\ reason = ClientError err)
    /\ fst (headObject params w) <> Pending.
Proof.
  intros params w. unfold headObject.
  destruct (headObjectReply w params) as [err|data].
  - destruct (String.eqb_spec (code err) "NotFound") as [Hcode|Hcode]; simpl.
    + split; [split; [intros _; now exists err | reflexivity]|].
      split; [discriminate|].
      split; [intros err' He Hne; inversion He; subst; now elim Hne|].
      split; discriminate.
    + split; [split; [discriminate|]|].
      { intros (err' & He & Hc). inversion He; subst. now elim Hcode. }
      split; [discriminate|].
      split; [intros err' He _; now inversion He|].
      split; [|discriminate].
      intros reason Hr. inversion Hr; subst. now exists err.
  - simpl. split; [split; [discriminate|]|].
    { intros (err & He & _). discriminate. }
    split; [intros data' Hd; now inversion Hd|].
    split; [discriminate|].
    split; discriminate.
Qed.

Lemma headObject_not_found_is_empty_witness :
  fst (headObject (probeParams (sampleOptions "2" false)) freshClient)
  = Resolved None
  /\ fst (headObject (probeParams (sampleOptions "2" false)) ledgerClient)
     = Resolved (Some {| HeadETag := "e2"; HeadLastModified := 400 |})
  /\ fst (headObject (probeParams (sampleOptions "2" false)) deniedClient)
     = Rejected (ClientError accessDenied).
Proof.
  split; [|split].
  - apply (proj2 (proj1 (headObject_not_found_is_empty
                           (probeParams (sampleOptions "2" false))
                           freshClient))).
    exists notFound. split; reflexivity.
  - apply (proj1 (proj2 (headObject_not_found_is_empty
                           (probeParams (sampleOptions "2" false))
                           ledgerClient))).
    reflexivity.
  - apply (proj1 (proj2 (proj2 (headObject_not_found_is_empty
                                  (probeParams (sampleOptions "2" false))
                                  deniedClient))));
      [reflexivity | discriminate].
Defined.

(* ================================================================== *)
(** ** Upload and activation *)

Lemma indexOfFrom_spec (x : string) (l : list string) :
  forall i, (0 <= i)%Z ->
            (In x l -> (i <= indexOfFrom i x l)%Z)
            /\ (~ In x l -> indexOfFrom i x l = (-1)%Z).
Proof.
  induction l as [|y l IH]; intros i Hi; simpl.
  - split; [contradiction | reflexivity].
  - destruct (String.eqb_spec y x) as [He|Hne].
    + split; [lia|]. intro Hn. elim Hn. now left.
    + assert (Hi' : (0 <= i + 1)%Z) by lia.
      destruct (IH (i + 1)%Z Hi') as [Hin Hout].
      split.
      * intros [Hy|Hx]; [now elim Hne|]. specialize (Hin Hx). lia.
      * intro Hn. apply Hout. intro Hx. apply Hn. now right.
Qed.

(** [found >= 0] says that the array holds the element. *)
Lemma indexOf_found (x : string) (l : list string) :
  (indexOf x l >=? 0)%Z = true <-> In x l.
Proof.
  unfold indexOf.
  destruct (@indexOfFrom_spec x l 0%Z ltac:(lia)) as [Hin Hout].
  rewrite Z.geb_le. split.
  - intro Hge. destruct (in_dec string_dec x l) as [Hx|Hx]; [exact Hx|].
    specialize (Hout Hx). lia.
  - exact Hin.
Qed.

(** [upload] once the ledger is there. *)
Lemma upload_after_fetch (fuel : nat) (o : Options) (w w1 : World)
  (revisions : list Revision) :
  fetchRevisions fuel o w = (Resolved revisions, w1) ->
  upload fuel o w
  = if (indexOf (revisionKey o) (map revision revisions) >=? 0)%Z
       && negb (allowOverwrite o)
    then (Rejected (Message REVISION_ALREADY_UPLOADED), w1)
    else match files w1 (filePath o) with
         | Some fileContents =>
             (denodeify (putObjectReply w1 (uploadParams o w fileContents)),
              issue (PutObjectCall (uploadParams o w fileContents)) w1)
         | None => (Rejected (FsError (filePath o)), w1)
         end.
Proof.
  intro Hfetch. unfold upload, andThen. rewrite Hfetch.
  destruct ((indexOf (revisionKey o) (map revision revisions) >=? 0)%Z
            && negb (allowOverwrite o)); simpl; [reflexivity|].
  unfold readFile.
  now destruct (files w1 (filePath o)).
Qed.

(** Until the ledger is there, [upload] does nothing else. *)
Lemma upload_before_fetch (fuel : nat) (o : Options) (w : World) :
  (forall revisions, fst (fetchRevisions fuel o w) <> Resolved revisions) ->
  snd (upload fuel o w) = snd (fetchRevisions fuel o w)
  /\ forall u, fst (upload fuel o w) <> Resolved u.
Proof.
  intro Hnot. unfold upload, andThen.
  destruct (fetchRevisions fuel o w) as [[revisions|reason|] w1]; simpl.
  - now elim (Hnot revisions).
  - split; [reflexivity | discriminate].
  - split; [reflexivity | discriminate].
Qed.

Lemma fetchRevisions_no_write (fuel : nat) (o : Options) (w w1 : World)
  (outcome : Settled (list Revision)) :
  fetchRevisions fuel o w = (outcome, w1) ->
  exists issued,
    calls w1 = calls w ++ issued /\ writes issued = [] /\ sameClient w w1.
Proof.
  intro Hfetch.
  destruct (fetchRevisions_reads fuel o w) as (issued & Hcalls & Hw & Hclient).
  rewrite Hfetch in Hcalls, Hclient. simpl in Hcalls, Hclient.
  now exists issued.
Qed.

Lemma writtenKeys_writes (l : list Call) :
  writtenKeys l = writtenKeys (writes l).
Proof.
  induction l as [|c l IH]; simpl; [reflexivity|].
  destruct c; simpl; now rewrite IH.
Qed.

(** C1, as the code has it.  Overwrite protection: [upload] starts by
    fetching the ledger.  When the ledger holds a record of the revision
    being uploaded and [allowOverwrite] is false, the upload is rejected
    with the duplicate-revision message and no write is issued.  Otherwise
    the local file is read: when it is readable exactly one write is issued,
    after the ledger's reads, a [putObject] whose key is the revision key;
    when it is not, the upload is rejected with the read error and no write
    is issued. *)
Theorem upload_overwrite_protection :
  forall fuel o w revisions w1,
    fetchRevisions fuel o w = (Resolved revisions, w1) ->
    (In (revisionKey o) (map revision revisions) ->
     allowOverwrite o = false ->
     upload fuel o w = (Rejected (Message REVISION_ALREADY_UPLOADED), w1)
     /\ writes (calls w1) = writes (calls w))
    /\ (~ In (revisionKey o) (map revision revisions)
        \/ allowOverwrite o = true ->
        (forall fileContents,
            files w (filePath o) = Some fileContents ->
            exists w',
              upload fuel o w
              = (denodeify (putObjectReply w (uploadParams o w fileContents)),
                 w')
              /\ calls w'
                 = calls w1
                     ++ [PutObjectCall (uploadParams o w fileContents)]
              /\ writes (calls w')
                 = writes (calls w)
                     ++ [PutObjectCall (uploadParams o w fileContents)]
              /\ PutObjectParams.Key (uploadParams o w fileContents)
                 = revisionKeyOf o)
        /\ (files w (filePath o) = None ->
            upload fuel o w = (Rejected (FsError (filePath o)), w1)
            /\ writes (calls w1) = writes (calls w))).
Proof.
  intros fuel o w revisions w1 Hfetch.
  pose proof (@upload_after_fetch fuel o w w1 revisions Hfetch) as Hrun.
  destruct (@fetchRevisions_no_write fuel o w w1 _ Hfetch)
    as (issued & Hcalls & Hnowrite & Hclient).
  assert (Hwrites : writes (calls w1) = writes (calls w)).
  { now rewrite Hcalls, writes_app, Hnowrite, app_nil_r. }
  split.
  - intros Hin Hallow.
    apply indexOf_found in Hin.
    rewrite Hin, Hallow in Hrun. simpl in Hrun.
    now split.
  - intros Hother.
    assert (Hcond : (indexOf (revisionKey o) (map revision revisions) >=? 0)%Z
                    && negb (allowOverwrite o) = false).
    { destruct Hother as [Hnotin|Hallow].
      - destruct (indexOf (revisionKey o) (map revision revisions) >=? 0)%Z
          eqn:Hfound; [|reflexivity].
        apply indexOf_found in Hfound. now elim Hnotin.
      - rewrite Hallow. apply andb_false_r. }
    destruct Hclient as (_ & Hput & _ & Hfiles & _).
    rewrite Hcond, Hfiles in Hrun.
    split.
    + intros fileContents Hfile.
      rewrite Hfile, Hput in Hrun.
      exists (issue (PutObjectCall (uploadParams o w fileContents)) w1).
      split; [exact Hrun|]. split; [reflexivity|]. split; [|reflexivity].
      simpl. now rewrite writes_app, Hwrites.
    + intro Hfile. rewrite Hfile in Hrun. now split.
Qed.

Lemma upload_overwrite_protection_witness :
  (fetchRevisions 1 (sampleOptions "2" false) ledgerClient
   = (Resolved sampleLedger, ledgerRead)
   /\ In "2" (map revision sampleLedger)
   /\ files ledgerClient "dist/index.html" = Some "<html></html>")
  /\ (upload 1 (sampleOptions "2" false) ledgerClient
      = (Rejected (Message REVISION_ALREADY_UPLOADED), ledgerRead)
      /\ writes (calls ledgerRead) = writes (calls ledgerClient))
  /\ (exists w',
        upload 1 (sampleOptions "2" true) ledgerClient = (Resolved tt, w')
        /\ calls w'
           = calls ledgerRead
               ++ [PutObjectCall
                     (uploadParams (sampleOptions "2" true) ledgerClient
                        "<html></html>")]
        /\ writes (calls w')
           = writes (calls ledgerClient)
               ++ [PutObjectCall
                     (uploadParams (sampleOptions "2" true) ledgerClient
                        "<html></html>")]
        /\ PutObjectParams.Key
             (uploadParams (sampleOptions "2" true) ledgerClient
                "<html></html>")
           = revisionKeyOf (sampleOptions "2" true)).
Proof.
  assert (Hin : In "2" (map revision sampleLedger))
    by (simpl; right; left; reflexivity).
  split; [repeat split; exact Hin|].
  split.
  - exact (proj1 (@upload_overwrite_protection 1 (sampleOptions "2" false)
                    ledgerClient sampleLedger ledgerRead eq_refl)
             Hin eq_refl).
  - exact (proj1 (proj2 (@upload_overwrite_protection 1
                           (sampleOptions "2" true) ledgerClient sampleLedger
                           ledgerRead eq_refl)
                    (or_intror eq_refl)) "<html></html>" eq_refl).
Defined.

(** C1, as stated, fails when the local file cannot be read: the ledger
    has no record of revision 4, yet the upload issues no write. *)
Lemma upload_overwrite_protection_counterexample :
  fetchRevisions 1 missingFileOptions ledgerClient
  = (Resolved sampleLedger, ledgerRead)
  /\ ~ In (revisionKey missingFileOptions) (map revision sampleLedger)
  /\ upload 1 missingFileOptions ledgerClient
     = (Rejected (FsError "dist/missing.html"), ledgerRead)
  /\ writes (calls ledgerRead) = []
  /\ putCalls (calls (snd (upload 1 missingFileOptions ledgerClient))) = [].
Proof.
  split; [reflexivity|].
  split; [simpl; intuition discriminate|].
  repeat split.
Qed.

Lemma copyCalls_app (l1 l2 : list Call) :
  copyCalls (l1 ++ l2) = copyCalls l1 ++ copyCalls l2.
Proof. apply flat_map_app. Qed.

Lemma copyCalls_writes (l : list Call) : copyCalls l = copyCalls (writes l).
Proof.
  induction l as [|c l IH]; simpl; [reflexivity|].
  destruct c; simpl; now rewrite IH.
Qed.

(** [activate] once the ledger is there. *)
Lemma activate_after_fetch (fuel : nat) (o : Options) (w w1 : World)
  (revisions : list Revision) :
  fetchRevisions fuel o w = (Resolved revisions, w1) ->
  activate fuel o w
  = if (indexOf (revisionKey o) (map revision revisions) >=? 0)%Z
    then (denodeify (copyObjectReply w1 (activateParams o)),
          issue (CopyObjectCall (activateParams o)) w1)
    else (Rejected (Message REVISION_NOT_FOUND), w1).
Proof.
  intro Hfetch. unfold activate, andThen. rewrite Hfetch.
  now destruct (indexOf (revisionKey o) (map revision revisions) >=? 0)%Z.
Qed.

(** C2.  Activation guard: [activate] starts by fetching the ledger.  When
    no record of the ledger has the revision being activated, the
    activation is rejected with the revision-not-found message and no copy
    (no write at all) is issued.  When there is such a record, exactly one
    write is issued after the ledger's reads: a [copyObject] whose source
    is the revision key, in the bucket, and whose destination is the index
    key. *)
Theorem activate_requires_revision :
  forall fuel o w revisions w1,
    fetchRevisions fuel o w = (Resolved revisions, w1) ->
    (~ In (revisionKey o) (map revision revisions) ->
     activate fuel o w = (Rejected (Message REVISION_NOT_FOUND), w1)
     /\ writes (calls w1) = writes (calls w)
     /\ copyCalls (calls w1) = copyCalls (calls w))
    /\ (In (revisionKey o) (map revision revisions) ->
        exists w',
          activate fuel o w
          = (denodeify (copyObjectReply w (activateParams o)), w')
          /\ calls w' = calls w1 ++ [CopyObjectCall (activateParams o)]
          /\ writes (calls w')
             = writes (calls w) ++ [CopyObjectCall (activateParams o)]
          /\ copyCalls (calls w')
             = copyCalls (calls w) ++ [activateParams o]
          /\ CopyObjectParams.CopySource (activateParams o)
             = encodeURIComponent (bucket o +' "/" +' revisionKeyOf o)
          /\ CopyObjectParams.Key (activateParams o) = indexKeyOf o).
Proof.
  intros fuel o w revisions w1 Hfetch.
  pose proof (@activate_after_fetch fuel o w w1 revisions Hfetch) as Hrun.
  destruct (@fetchRevisions_no_write fuel o w w1 _ Hfetch)
    as (issued & Hcalls & Hnowrite & Hclient).
  assert (Hwrites : writes (calls w1) = writes (calls w)).
  { now rewrite Hcalls, writes_app, Hnowrite, app_nil_r. }
  assert (Hcopies : copyCalls (calls w1) = copyCalls (calls w)).
  { now rewrite (copyCalls_writes (calls w1)), Hwrites, <- copyCalls_writes. }
  split.
  - intro Hnotin.
    destruct (indexOf (revisionKey o) (map revision revisions) >=? 0)%Z
      eqn:Hfound.
    + apply indexOf_found in Hfound. now elim Hnotin.
    + now repeat split.
  - intro Hin. apply indexOf_found in Hin. rewrite Hin in Hrun.
    destruct Hclient as (_ & _ & Hcopy & _).
    rewrite Hcopy in Hrun.
    exists (issue (CopyObjectCall (activateParams o)) w1).
    split; [exact Hrun|]. split; [reflexivity|]. simpl.
    rewrite writes_app, copyCalls_app, Hwrites, Hcopies.
    repeat split.
Qed.

Lemma activate_requires_revision_witness :
  (fetchRevisions 1 (sampleOptions "9" false) ledgerClient
   = (Resolved sampleLedger, ledgerRead)
   /\ ~ In "9" (map revision sampleLedger)
   /\ In "2" (map revision sampleLedger))
  /\ (activate 1 (sampleOptions "9" false) ledgerClient
      = (Rejected (Message REVISION_NOT_FOUND), ledgerRead)
      /\ writes (calls ledgerRead) = writes (calls ledgerClient)
      /\ copyCalls (calls ledgerRead) = copyCalls (calls ledgerClient))
  /\ (exists w',
        activate 1 (sampleOptions "2" false) ledgerClient = (Resolved tt, w')
        /\ calls w'
           = calls ledgerRead
               ++ [CopyObjectCall (activateParams (sampleOptions "2" false))]
        /\ writes (calls w')
           = writes (calls ledgerClient)
               ++ [CopyObjectCall (activateParams (sampleOptions "2" false))]
        /\ copyCalls (calls w')
           = copyCalls (calls ledgerClient)
               ++ [activateParams (sampleOptions "2" false)]
        /\ CopyObjectParams.CopySource
             (activateParams (sampleOptions "2" false))
           = "assets%2Fapp%2Findex.html%3A2"
        /\ CopyObjectParams.Key (activateParams (sampleOptions "2" false))
           = "app/index.html").
Proof.
  assert (Hin : In "2" (map revision sampleLedger))
    by (simpl; right; left; reflexivity).
  assert (Hnotin : ~ In "9" (map revision sampleLedger))
    by (simpl; intuition discriminate).
  split; [repeat split; assumption|].
  split.
  - exact (proj1 (@activate_requires_revision 1 (sampleOptions "9" false)
                    ledgerClient sampleLedger ledgerRead eq_refl) Hnotin).
  - exact (proj2 (@activate_requires_revision 1 (sampleOptions "2" false)
                    ledgerClient sampleLedger ledgerRead eq_refl) Hin).
Defined.

(** C9.  Frame of a successful upload: the calls it issued contain exactly
    one write, the [putObject] of the file's contents at the revision key.
    The only key written is the revision key, which is not the index key:
    no call of the upload writes to the index key. *)
Theorem upload_writes_revision_key_only :
  forall fuel o w w',
    upload fuel o w = (Resolved tt, w') ->
    exists issued fileContents,
      calls w' = calls w ++ issued
      /\ files w (filePath o) = Some fileContents
      /\ writes issued = [PutObjectCall (uploadParams o w fileContents)]
      /\ writtenKeys issued = [revisionKeyOf o]
      /\ copyCalls issued = []
      /\ ~ In (indexKeyOf o) (writtenKeys issued).
Proof.
  intros fuel o w w' Hup.
  destruct (fetchRevisions fuel o w) as [[revisions|reason|] w1] eqn:Hfetch.
  - rewrite (@upload_after_fetch fuel o w w1 revisions Hfetch) in Hup.
    destruct (@fetchRevisions_no_write fuel o w w1 _ Hfetch)
      as (reads & Hcalls & Hnowrite & Hclient).
    destruct Hclient as (_ & _ & _ & Hfiles & _).
    destruct ((indexOf (revisionKey o) (map revision revisions) >=? 0)%Z
              && negb (allowOverwrite o)); [discriminate|].
    rewrite Hfiles in Hup.
    destruct (files w (filePath o)) as [fileContents|] eqn:Hfile;
      [|discriminate].
    inversion Hup as [[Hack Hw']]. clear Hup.
    set (params := uploadParams o w fileContents) in *.
    exists (reads ++ [PutObjectCall params]), fileContents.
    assert (Hw : writes (reads ++ [PutObjectCall params])
                 = [PutObjectCall params])
      by (now rewrite writes_app, Hnowrite).
    split; [simpl; now rewrite Hcalls, app_assoc|].
    split; [reflexivity|]. split; [exact Hw|].
    rewrite writtenKeys_writes, copyCalls_writes, Hw. simpl.
    repeat split.
    intros [Heq|[]]. now apply (revisionKeyOf_neq_indexKeyOf o).
  - exfalso.
    destruct (@upload_before_fetch fuel o w) as (_ & Hnot).
    + rewrite Hfetch. discriminate.
    + apply (Hnot tt). now rewrite Hup.
  - exfalso.
    destruct (@upload_before_fetch fuel o w) as (_ & Hnot).
    + rewrite Hfetch. discriminate.
    + apply (Hnot tt). now rewrite Hup.
Qed.

Lemma upload_writes_revision_key_only_witness :
  upload 1 (sampleOptions "4" false) ledgerClient
  = (Resolved tt, snd (upload 1 (sampleOptions "4" false) ledgerClient))
  /\ exists issued fileContents,
       calls (snd (upload 1 (sampleOptions "4" false) ledgerClient))
       = calls ledgerClient ++ issued
       /\ files ledgerClient "dist/index.html" = Some fileContents
       /\ writes issued
          = [PutObjectCall
               (uploadParams (sampleOptions "4" false) ledgerClient
                  fileContents)]
       /\ writtenKeys issued = ["app/index.html:4"]
       /\ copyCalls issued = []
       /\ ~ In "app/index.html" (writtenKeys issued).
Proof.
  split; [reflexivity|].
  exact (@upload_writes_revision_key_only 1 (sampleOptions "4" false)
           ledgerClient _ eq_refl).
Defined.

(* ================================================================== *)
(** ** Further properties of the listing *)

Lemma headCalls_app (l1 l2 : list Call) :
  headCalls (l1 ++ l2) = headCalls l1 ++ headCalls l2.
Proof. apply flat_map_app. Qed.

Lemma listCalls_app (l1 l2 : list Call) :
  listCalls (l1 ++ l2) = listCalls l1 ++ listCalls l2.
Proof. apply flat_map_app. Qed.

Lemma putCalls_app (l1 l2 : list Call) :
  putCalls (l1 ++ l2) = putCalls l1 ++ putCalls l2.
Proof. apply flat_map_app. Qed.

Lemma putCalls_writes (l : list Call) : putCalls l = putCalls (writes l).
Proof.
  induction l as [|c l IH]; simpl; [reflexivity|].
  destruct c; simpl; now rewrite IH.
Qed.

Lemma headCalls_listRequests (options : ListObjectsParams.t) markers :
  headCalls (listRequests options markers) = [].
Proof. induction markers; simpl; auto. Qed.

Lemma listCalls_listRequests (options : ListObjectsParams.t) markers :
  listCalls (listRequests options markers) = map (withMarker options) markers.
Proof.
  induction markers as [|m markers IH]; simpl; [reflexivity|].
  now rewrite IH.
Qed.

Lemma samePrefix_withMarker (options : ListObjectsParams.t) markers :
  Forall (samePrefix options) (map (withMarker options) markers).
Proof.
  induction markers; simpl; constructor; auto. now split.
Qed.

(** A listing that is allowed at least one page starts with the caller's
    own request. *)
Lemma listObjectRecursively_requests :
  forall fuel options acc w,
    exists markers,
      calls (snd (listObjectRecursively (S fuel) options acc w))
      = calls w
          ++ listRequests options
               (ListObjectsParams.Marker options :: markers).
Proof.
  intros fuel options acc w.
  simpl listObjectRecursively. unfold andThen, listObjects.
  destruct (listObjectsReplies w) as [|[err|page] rest] eqn:Hs; simpl;
    try (exists []; simpl; now rewrite withMarker_own).
  destruct (IsTruncated page);
    [|exists []; simpl; now rewrite withMarker_own].
  destruct (getNextMarker page) as [m|exn];
    [|exists []; simpl; now rewrite withMarker_own].
  destruct (listObjectRecursively_reads fuel (setMarker options m)
              (acc ++ Contents page)
              (answered (issue (ListObjectsCall options) w)))
    as (markers & Hcalls & _).
  exists markers. rewrite Hcalls, listRequests_setMarker. simpl.
  now rewrite withMarker_own, <- app_assoc.
Qed.

Lemma listObjectRecursively_fails :
  forall pages fuel options acc w err rest,
    listObjectsReplies w = map Success pages ++ Failure err :: rest ->
    Forall truncatedPage pages ->
    length pages < fuel ->
    exists w' markers,
      listObjectRecursively fuel options acc w
      = (Rejected (ClientError err), w')
      /\ calls w'
         = calls w
             ++ listRequests options
                  (ListObjectsParams.Marker options :: markers)
      /\ length markers = length pages
      /\ listObjectsReplies w' = rest
      /\ sameClient w w'.
Proof.
  induction pages as [|first pages IH];
    intros fuel options acc w err rest Hs Hpages Hfuel;
    (destruct fuel as [|fuel]; [simpl in Hfuel; lia|]);
    simpl in Hs; simpl listObjectRecursively; unfold andThen;
    rewrite (listObjects_answer options w Hs); simpl denodeify; cbv beta iota.
  - exists (answered (issue (ListObjectsCall options) w)), [].
    repeat split; simpl.
    + now rewrite withMarker_own.
    + now rewrite Hs.
  - inversion Hpages as [|? ? [Hfirst Hderiv] Hrest]; subst.
    rewrite Hfirst.
    destruct (getNextMarker_derivable Hderiv) as (m & Hm & _).
    rewrite Hm.
    set (w1 := answered (issue (ListObjectsCall options) w)).
    assert (Hs1 : listObjectsReplies w1
                  = map Success pages ++ Failure err :: rest)
      by (simpl; now rewrite Hs).
    assert (Hfuel' : length pages < fuel) by (simpl in Hfuel; lia).
    destruct (IH fuel (setMarker options m) (acc ++ Contents first) w1
                err rest Hs1 Hrest Hfuel')
      as (w' & markers & Hrun & Hcalls & Hlen & Hscript & Hclient).
    exists w', (Some m :: markers).
    split; [exact Hrun|].
    split; [|split; [simpl; now rewrite Hlen|split; [exact Hscript|]]].
    + rewrite Hcalls, listRequests_setMarker. subst w1. simpl.
      now rewrite withMarker_own, <- app_assoc.
    + apply sameClient_trans with w1; [|exact Hclient].
      subst w1. repeat split.
Qed.

(** X1.  An error of the client during a listing ends the listing: when the
    client answers with truncated pages and then with an error,
    [listAllObjects] is rejected with that error, has sent one request per
    answer and no further one, and returns none of the items it had
    collected. *)
Theorem listAllObjects_transport_error :
  forall fuel options w pages err rest,
    listObjectsReplies w = map Success pages ++ Failure err :: rest ->
    Forall truncatedPage pages ->
    length pages < fuel ->
    exists w' markers,
      listAllObjects fuel options w = (Rejected (ClientError err), w')
      /\ calls w'
         = calls w
             ++ listRequests options
                  (ListObjectsParams.Marker options :: markers)
      /\ length markers = length pages
      /\ listObjectsReplies w' = rest.
Proof.
  intros fuel options w pages err rest Hs Hpages Hfuel.
  destruct (@listObjectRecursively_fails pages fuel options [] w err rest
              Hs Hpages Hfuel)
    as (w' & markers & Hrun & Hcalls & Hlen & Hscript & _).
  exists w', markers. unfold listAllObjects. auto.
Qed.

Lemma listAllObjects_transport_error_witness :
  (listObjectsReplies interruptedClient
   = map Success threePages ++ Failure accessDenied :: []
   /\ Forall truncatedPage threePages
   /\ length threePages < 4)
  /\ exists w' markers,
       listAllObjects 4 (listingParams (sampleOptions "r11" false))
         interruptedClient
       = (Rejected (ClientError accessDenied), w')
       /\ calls w'
          = calls interruptedClient
              ++ listRequests (listingParams (sampleOptions "r11" false))
                   (None :: markers)
       /\ length markers = length threePages
       /\ listObjectsReplies w' = [].
Proof.
  assert (H4 : length threePages < 4) by (simpl; lia).
  split; [repeat split; [exact threePages_truncated | exact H4]|].
  exact (@listAllObjects_transport_error 4
           (listingParams (sampleOptions "r11" false)) interruptedClient
           threePages accessDenied [] eq_refl threePages_truncated H4).
Defined.

(** X2.  Whatever the client answers, a listing issues [listObjects]
    requests only; the first is the caller's own request and every one is
    for the caller's bucket and prefix: the recursion changes nothing but
    the marker. *)
Theorem listAllObjects_requests_keep_prefix :
  forall fuel options w,
    exists issued,
      calls (snd (listAllObjects (S fuel) options w)) = calls w ++ issued
      /\ hd_error issued = Some (ListObjectsCall options)
      /\ length (listCalls issued) = length issued
      /\ Forall (samePrefix options) (listCalls issued)
      /\ writes issued = []
      /\ headCalls issued = [].
Proof.
  intros fuel options w. unfold listAllObjects.
  destruct (listObjectRecursively_requests fuel options [] w)
    as (markers & Hcalls).
  exists (listRequests options (ListObjectsParams.Marker options :: markers)).
  split; [exact Hcalls|].
  split; [simpl; now rewrite withMarker_own|].
  rewrite listCalls_listRequests, writes_listRequests, headCalls_listRequests.
  split; [unfold listRequests; now rewrite !length_map|].
  split; [apply samePrefix_withMarker | split; reflexivity].
Qed.

(* ================================================================== *)
(** ** Further properties of the ledger *)

Lemma fetchRevisions_calls (fuel : nat) (o : Options) (w : World) :
  exists markers,
    calls (snd (fetchRevisions fuel o w))
    = calls w ++ listRequests (listingParams o) markers
        ++ [HeadObjectCall (probeParams o)].
Proof.
  unfold fetchRevisions, andThen, hash, listAllObjects.
  fold (listingParams o). fold (probeParams o).
  destruct (listObjectRecursively_reads fuel (listingParams o) [] w)
    as (markers & Hcalls & _).
  destruct (listObjectRecursively fuel (listingParams o) [] w) as [ra w1].
  simpl in Hcalls.
  pose proof (headObject_world (probeParams o) w1) as Hhead.
  destruct (headObject (probeParams o) w1) as [rb w2].
  simpl in Hhead. subst w2.
  exists markers.
  assert (Hsnd : forall r : Settled (list Revision) * World,
             snd r = issue (HeadObjectCall (probeParams o)) w1 ->
             calls (snd r)
             = calls w ++ listRequests (listingParams o) markers
                 ++ [HeadObjectCall (probeParams o)]).
  { intros r Hr. rewrite Hr. simpl. now rewrite Hcalls, <- app_assoc. }
  apply Hsnd.
  destruct ra, rb; reflexivity.
Qed.

(** X3.  [fetchRevisions] only reads, whatever the client answers: it
    issues no write, it probes the index key exactly once, also when the
    listing fails, and its listing requests are all for the revision prefix
    in the bucket of the options. *)
Theorem fetchRevisions_read_only :
  forall fuel o w,
    exists issued,
      calls (snd (fetchRevisions fuel o w)) = calls w ++ issued
      /\ writes issued = []
      /\ headCalls issued = [probeParams o]
      /\ Forall (samePrefix (listingParams o)) (listCalls issued)
      /\ sameClient w (snd (fetchRevisions fuel o w)).
Proof.
  intros fuel o w.
  destruct (fetchRevisions_calls fuel o w) as (markers & Hcalls).
  destruct (fetchRevisions_reads fuel o w) as (_ & _ & _ & Hclient).
  exists (listRequests (listingParams o) markers
          ++ [HeadObjectCall (probeParams o)]).
  split; [exact Hcalls|].
  rewrite writes_app, headCalls_app, listCalls_app.
  rewrite writes_listRequests, headCalls_listRequests, listCalls_listRequests.
  simpl. rewrite app_nil_r.
  split; [reflexivity|]. split; [reflexivity|].
  split; [apply samePrefix_withMarker | exact Hclient].
Qed.

Lemma activate_before_fetch (fuel : nat) (o : Options) (w w1 : World)
  (reason : Reason) :
  fetchRevisions fuel o w = (Rejected reason, w1) ->
  activate fuel o w = (Rejected reason, w1).
Proof.
  intro Hfetch. unfold activate, andThen. now rewrite Hfetch.
Qed.

Lemma upload_rejected_fetch (fuel : nat) (o : Options) (w w1 : World)
  (reason : Reason) :
  fetchRevisions fuel o w = (Rejected reason, w1) ->
  upload fuel o w = (Rejected reason, w1).
Proof.
  intro Hfetch. unfold upload, andThen. now rewrite Hfetch.
Qed.

(** X4.  A ledger that cannot be fetched stops both operations: when
    [fetchRevisions] is rejected, [upload] and [activate] are rejected with
    the same reason, unchanged, and neither issues a write, also when
    [allowOverwrite] is true and the ledger would not have been looked
    at. *)
Theorem ledger_rejection_propagates :
  forall fuel o w reason w1,
    fetchRevisions fuel o w = (Rejected reason, w1) ->
    upload fuel o w = (Rejected reason, w1)
    /\ activate fuel o w = (Rejected reason, w1)
    /\ writes (calls w1) = writes (calls w).
Proof.
  intros fuel o w reason w1 Hfetch.
  split; [now apply upload_rejected_fetch|].
  split; [now apply activate_before_fetch|].
  destruct (@fetchRevisions_no_write fuel o w w1 _ Hfetch)
    as (issued & Hcalls & Hnowrite & _).
  now rewrite Hcalls, writes_app, Hnowrite, app_nil_r.
Qed.

Lemma ledger_rejection_propagates_witness :
  fetchRevisions 1 (sampleOptions "2" true) deniedClient
  = (Rejected (ClientError accessDenied),
     snd (fetchRevisions 1 (sampleOptions "2" true) deniedClient))
  /\ upload 1 (sampleOptions "2" true) deniedClient
     = (Rejected (ClientError accessDenied),
        snd (fetchRevisions 1 (sampleOptions "2" true) deniedClient))
  /\ activate 1 (sampleOptions "2" true) deniedClient
     = (Rejected (ClientError accessDenied),
        snd (fetchRevisions 1 (sampleOptions "2" true) deniedClient))
  /\ writes (calls (snd (fetchRevisions 1 (sampleOptions "2" true)
                           deniedClient)))
     = writes (calls deniedClient).
Proof.
  split; [reflexivity|].
  exact (@ledger_rejection_propagates 1 (sampleOptions "2" true) deniedClient
           (ClientError accessDenied) _ eq_refl).
Defined.

(** X5.  An error of the probe other than not-found is not taken for an
    absent index object: when the listing comes to its end and the probe
    of the index key fails with another code, [fetchRevisions] is rejected
    with the probe's error and returns no ledger. *)
Theorem fetchRevisions_probe_error :
  forall fuel o w pages lastPage rest err,
    listObjectsReplies w = map Success pages ++ Success lastPage :: rest ->
    Forall truncatedPage pages ->
    IsTruncated lastPage = false ->
    length pages < fuel ->
    headObjectReply w (probeParams o) = Failure err ->
    code err <> "NotFound" ->
    exists w', fetchRevisions fuel o w = (Rejected (ClientError err), w').
Proof.
  intros fuel o w pages lastPage rest err Hs Hpages Hlast Hfuel Hhead Hcode.
  destruct (@listObjectRecursively_pages pages fuel (listingParams o) [] w
              lastPage rest Hs Hpages Hlast Hfuel)
    as (w1 & markers & Hrun & _ & _ & _ & Hclient).
  unfold fetchRevisions, andThen, hash, listAllObjects.
  fold (listingParams o). fold (probeParams o).
  rewrite Hrun. unfold headObject.
  destruct Hclient as (Hreply & _). rewrite Hreply, Hhead.
  apply String.eqb_neq in Hcode. rewrite Hcode. eauto.
Qed.

Lemma fetchRevisions_probe_error_witness :
  (listObjectsReplies deniedClient
   = map Success [] ++ Success (samplePage threeRevisions false None) :: []
   /\ headObjectReply deniedClient (probeParams (sampleOptions "2" false))
      = Failure accessDenied
   /\ code accessDenied <> "NotFound")
  /\ exists w',
       fetchRevisions 1 (sampleOptions "2" false) deniedClient
       = (Rejected (ClientError accessDenied), w').
Proof.
  assert (Hcode : code accessDenied <> "NotFound") by discriminate.
  split; [repeat split; exact Hcode|].
  exact (@fetchRevisions_probe_error 1 (sampleOptions "2" false) deniedClient
           [] (samplePage threeRevisions false None) [] accessDenied
           eq_refl (Forall_nil _) eq_refl (Nat.lt_0_succ 0) eq_refl Hcode).
Defined.

(** X6.  No partial ledger: when the listing is cut short by an error of
    the client, and the probe itself answers, [fetchRevisions] is rejected
    with the listing's error, whatever pages had been received. *)
Theorem fetchRevisions_listing_error :
  forall fuel o w pages err rest,
    listObjectsReplies w = map Success pages ++ Failure err :: rest ->
    Forall truncatedPage pages ->
    length pages < fuel ->
    probeAnswers o w ->
    exists w', fetchRevisions fuel o w = (Rejected (ClientError err), w').
Proof.
  intros fuel o w pages err rest Hs Hpages Hfuel Hprobe.
  destruct (@listObjectRecursively_fails pages fuel (listingParams o) [] w
              err rest Hs Hpages Hfuel)
    as (w1 & markers & Hrun & _ & _ & _ & Hclient).
  unfold fetchRevisions, andThen, hash, listAllObjects.
  fold (listingParams o). fold (probeParams o).
  rewrite Hrun.
  destruct (headObject (probeParams o) w1) as [rb w2].
  destruct rb; eauto.
Qed.

Lemma fetchRevisions_listing_error_witness :
  (listObjectsReplies interruptedClient
   = map Success threePages ++ Failure accessDenied :: []
   /\ Forall truncatedPage threePages
   /\ length threePages < 4
   /\ probeAnswers (sampleOptions "2" false) interruptedClient)
  /\ exists w',
       fetchRevisions 4 (sampleOptions "2" false) interruptedClient
       = (Rejected (ClientError accessDenied), w').
Proof.
  assert (H4 : length threePages < 4) by (simpl; lia).
  assert (Hprobe : probeAnswers (sampleOptions "2" false) interruptedClient).
  { intros err Herr. simpl in Herr. now inversion Herr. }
  split;
    [split; [reflexivity|];
     split; [exact threePages_truncated|]; split; [exact H4 | exact Hprobe]|].
  exact (@fetchRevisions_listing_error 4 (sampleOptions "2" false)
           interruptedClient threePages accessDenied [] eq_refl
           threePages_truncated H4 Hprobe).
Defined.

(** The ledger and the listing it was made from name the same revisions. *)
Lemma ledger_membership (p : string) (current : option HeadObjectOutput)
  (listed : list S3Object) (id : string) :
  In id (map revision
           (map (toRevision p current) (sort byLastModified listed)))
  <-> exists d, In d listed /\ id = substr (String.length p) (Key d).
Proof.
  rewrite map_map. simpl. rewrite in_map_iff. split.
  - intros (d & Hid & Hin). exists d. split; [|now symmetry].
    eapply Permutation_in; [apply sort_perm | exact Hin].
  - intros (d & Hin & Hid). exists d. split; [now symmetry|].
    eapply Permutation_in; [apply Permutation_sym, sort_perm | exact Hin].
Qed.

(** X7.  The ledger names exactly the listed revisions: it has one record
    per listed object, a revision identifier is in the ledger if and only
    if it is what [substr] leaves of some listed key, and in particular the
    identifier of every listed key made of the listing prefix followed by
    that identifier is in the ledger. *)
Theorem fetchRevisions_lists_revisions :
  forall fuel o w revisions w' listing w1,
    fetchRevisions fuel o w = (Resolved revisions, w') ->
    listAllObjects fuel (listingParams o) w = (Resolved listing, w1) ->
    length revisions = length (All listing)
    /\ (forall id,
           In id (map revision revisions) <->
           exists d, In d (All listing)
                     /\ id = substr (String.length (revisionPrefixOf o))
                               (Key d))
    /\ (forall id d,
           In d (All listing) ->
           Key d = revisionPrefixOf o +' id ->
           In id (map revision revisions)).
Proof.
  intros fuel o w revisions w' listing w1 Hrun Hlist.
  apply fetchRevisions_resolved in Hrun.
  destruct Hrun as (listing' & w1' & current & Hlist' & _ & _ & Hrevs).
  rewrite Hlist in Hlist'. inversion Hlist'; subst listing' w1'. clear Hlist'.
  subst revisions.
  split; [|split].
  - rewrite length_map. apply Permutation_length, sort_perm.
  - intro id. apply ledger_membership.
  - intros id d Hin Hkey. apply ledger_membership.
    exists d. split; [exact Hin|].
    now rewrite Hkey, substr_length_append.
Qed.

Lemma fetchRevisions_lists_revisions_witness :
  (fetchRevisions 1 (sampleOptions "2" false) ledgerClient
   = (Resolved sampleLedger, ledgerRead)
   /\ listAllObjects 1 (listingParams (sampleOptions "2" false)) ledgerClient
      = (Resolved {| Last := samplePage threeRevisions false None;
                     All := threeRevisions |},
         snd (listAllObjects 1 (listingParams (sampleOptions "2" false))
                ledgerClient)))
  /\ length sampleLedger = length threeRevisions
  /\ (forall id,
         In id (map revision sampleLedger) <->
         exists d, In d threeRevisions
                   /\ id = substr
                             (String.length
                                (revisionPrefixOf (sampleOptions "2" false)))
                             (Key d))
  /\ (forall id d,
         In d threeRevisions ->
         Key d = revisionPrefixOf (sampleOptions "2" false) +' id ->
         In id (map revision sampleLedger)).
Proof.
  split; [split; reflexivity|].
  exact (@fetchRevisions_lists_revisions 1 (sampleOptions "2" false)
           ledgerClient sampleLedger ledgerRead
           {| Last := samplePage threeRevisions false None;
              All := threeRevisions |} _ eq_refl eq_refl).
Defined.

(* ================================================================== *)
(** ** Further properties of upload and activation *)

(** The ledger of a listing that comes to its end, the probe answering. *)
Lemma ledger_of_pages (fuel : nat) (o : Options) (w : World)
  (pages : list ListObjectsOutput) (lastPage : ListObjectsOutput)
  (rest : list (Reply ListObjectsOutput)) :
  listObjectsReplies w = map Success pages ++ Success lastPage :: rest ->
  Forall truncatedPage pages ->
  IsTruncated lastPage = false ->
  length pages < fuel ->
  probeAnswers o w ->
  exists current w1,
    fetchRevisions fuel o w
    = (Resolved (map (toRevision (revisionPrefixOf o) current)
                   (sort byLastModified
                      (flat_map Contents (pages ++ [lastPage])))), w1).
Proof.
  intros Hs Hpages Hlast Hfuel Hprobe.
  destruct (@listObjectRecursively_pages pages fuel (listingParams o) [] w
              lastPage rest Hs Hpages Hlast Hfuel)
    as (w1 & markers & Hrun & _ & _ & _ & Hclient).
  unfold fetchRevisions, andThen, hash, listAllObjects.
  fold (listingParams o). fold (probeParams o).
  rewrite Hrun. unfold headObject, resolve.
  destruct Hclient as (Hreply & _). rewrite Hreply.
  rewrite flat_map_app. simpl flat_map. rewrite app_nil_r.
  destruct (headObjectReply w (probeParams o)) as [err|data] eqn:Hhead.
  - rewrite (Hprobe err Hhead). simpl. eauto.
  - simpl. eauto.
Qed.

(** The writes of an upload, whatever its outcome. *)
Lemma upload_writes_cases (fuel : nat) (o : Options) (w : World) :
  exists issued,
    calls (snd (upload fuel o w)) = calls w ++ issued
    /\ (writes issued = []
        \/ exists fileContents,
             writes issued = [PutObjectCall (uploadParams o w fileContents)]).
Proof.
  destruct (fetchRevisions fuel o w) as [outcome w1] eqn:Hfetch.
  destruct (@fetchRevisions_no_write fuel o w w1 outcome Hfetch)
    as (reads & Hcalls & Hnowrite & _).
  destruct outcome as [revisions|reason|].
  - rewrite (@upload_after_fetch fuel o w w1 revisions Hfetch).
    destruct ((indexOf (revisionKey o) (map revision revisions) >=? 0)%Z
              && negb (allowOverwrite o)).
    + exists reads. simpl. auto.
    + destruct (files w1 (filePath o)) as [fileContents|].
      * exists (reads ++ [PutObjectCall (uploadParams o w fileContents)]).
        simpl. rewrite Hcalls, app_assoc. split; [reflexivity|].
        right. exists fileContents. now rewrite writes_app, Hnowrite.
      * exists reads. simpl. auto.
  - rewrite (@upload_rejected_fetch fuel o w w1 reason Hfetch).
    exists reads. simpl. auto.
  - assert (Hup : upload fuel o w = (Pending, w1))
      by (unfold upload, andThen; now rewrite Hfetch).
    rewrite Hup. exists reads. simpl. auto.
Qed.

(** X8.  Whatever its outcome, an upload issues at most one write; it is
    never a copy, the only key it can write to is the revision key, and it
    never writes to the index key. *)
Theorem upload_at_most_one_write :
  forall fuel o w,
    exists issued,
      calls (snd (upload fuel o w)) = calls w ++ issued
      /\ length (writes issued) <= 1
      /\ copyCalls issued = []
      /\ Forall (eq (revisionKeyOf o)) (writtenKeys issued)
      /\ ~ In (indexKeyOf o) (writtenKeys issued).
Proof.
  intros fuel o w.
  destruct (upload_writes_cases fuel o w)
    as (issued & Hcalls & [Hnone|(fileContents & Hone)]);
    exists issued; (split; [exact Hcalls|]);
    rewrite copyCalls_writes, writtenKeys_writes.
  - rewrite Hnone. simpl. repeat split; auto.
  - rewrite Hone. simpl. repeat split; auto.
    intros [Heq|[]]. now apply (revisionKeyOf_neq_indexKeyOf o).
Qed.

(** The writes of an activation, whatever its outcome. *)
Lemma activate_writes_cases (fuel : nat) (o : Options) (w : World) :
  exists issued,
    calls (snd (activate fuel o w)) = calls w ++ issued
    /\ (writes issued = []
        \/ writes issued = [CopyObjectCall (activateParams o)]).
Proof.
  destruct (fetchRevisions fuel o w) as [outcome w1] eqn:Hfetch.
  destruct (@fetchRevisions_no_write fuel o w w1 outcome Hfetch)
    as (reads & Hcalls & Hnowrite & _).
  destruct outcome as [revisions|reason|].
  - rewrite (@activate_after_fetch fuel o w w1 revisions Hfetch).
    destruct (indexOf (revisionKey o) (map revision revisions) >=? 0)%Z.
    + exists (reads ++ [CopyObjectCall (activateParams o)]).
      simpl. rewrite Hcalls, app_assoc. split; [reflexivity|].
      right. now rewrite writes_app, Hnowrite.
    + exists reads. simpl. auto.
  - rewrite (@activate_before_fetch fuel o w w1 reason Hfetch).
    exists reads. simpl. auto.
  - assert (Hact : activate fuel o w = (Pending, w1))
      by (unfold activate, andThen; now rewrite Hfetch).
    rewrite Hact. exists reads. simpl. auto.
Qed.

(** X9.  Whatever its outcome, an activation issues at most one write; it
    is never a [putObject], the only key it can write to is the index key,
    and it never writes to the revision key: the revision stays as it was
    uploaded. *)
Theorem activate_at_most_one_write :
  forall fuel o w,
    exists issued,
      calls (snd (activate fuel o w)) = calls w ++ issued
      /\ length (writes issued) <= 1
      /\ putCalls issued = []
      /\ Forall (eq (indexKeyOf o)) (writtenKeys issued)
      /\ ~ In (revisionKeyOf o) (writtenKeys issued).
Proof.
  intros fuel o w.
  destruct (activate_writes_cases fuel o w)
    as (issued & Hcalls & [Hnone|Hone]);
    exists issued; (split; [exact Hcalls|]);
    rewrite putCalls_writes, writtenKeys_writes.
  - rewrite Hnone. simpl. repeat split; auto.
  - rewrite Hone. simpl. repeat split; auto.
    intros [Heq|[]]. now apply (revisionKeyOf_neq_indexKeyOf o).
Qed.

(** X10.  A revision that is listed is not uploaded twice: when some page
    of the listing holds an object whose key is the listing prefix followed
    by the revision identifier of the options, and [allowOverwrite] is
    false, the upload is rejected with the duplicate-revision message and
    issues no write. *)
Theorem upload_refuses_listed_revision :
  forall fuel o w pages lastPage rest d,
    listObjectsReplies w = map Success pages ++ Success lastPage :: rest ->
    Forall truncatedPage pages ->
    IsTruncated lastPage = false ->
    length pages < fuel ->
    probeAnswers o w ->
    In d (flat_map Contents (pages ++ [lastPage])) ->
    Key d = revisionPrefixOf o +' revisionKey o ->
    allowOverwrite o = false ->
    exists w',
      upload fuel o w = (Rejected (Message REVISION_ALREADY_UPLOADED), w')
      /\ writes (calls w') = writes (calls w).
Proof.
  intros fuel o w pages lastPage rest d Hs Hpages Hlast Hfuel Hprobe Hin Hkey
    Hallow.
  destruct (@ledger_of_pages fuel o w pages lastPage rest Hs Hpages Hlast
              Hfuel Hprobe) as (current & w1 & Hfetch).
  exists w1.
  rewrite (@upload_after_fetch fuel o w w1 _ Hfetch).
  destruct (@fetchRevisions_no_write fuel o w w1 _ Hfetch)
    as (reads & Hcalls & Hnowrite & _).
  assert (Hfound : In (revisionKey o)
                     (map revision
                        (map (toRevision (revisionPrefixOf o) current)
                           (sort byLastModified
                              (flat_map Contents (pages ++ [lastPage])))))).
  { apply ledger_membership. exists d. split; [exact Hin|].
    now rewrite Hkey, substr_length_append. }
  apply indexOf_found in Hfound. rewrite Hfound, Hallow. simpl.
  split; [reflexivity|].
  now rewrite Hcalls, writes_app, Hnowrite, app_nil_r.
Qed.

Lemma upload_refuses_listed_revision_witness :
  (listObjectsReplies fourPageClient
   = map Success threePages ++ Success fourthPage :: []
   /\ Forall truncatedPage threePages
   /\ IsTruncated fourthPage = false
   /\ length threePages < 4
   /\ probeAnswers (sampleOptions "r08" false) fourPageClient
   /\ In (sampleObject "r08" 8 "e08")
        (flat_map Contents (threePages ++ [fourthPage]))
   /\ Key (sampleObject "r08" 8 "e08")
      = revisionPrefixOf (sampleOptions "r08" false) +' "r08")
  /\ exists w',
       upload 4 (sampleOptions "r08" false) fourPageClient
       = (Rejected (Message REVISION_ALREADY_UPLOADED), w')
       /\ writes (calls w') = writes (calls fourPageClient).
Proof.
  assert (H4 : length threePages < 4) by (simpl; lia).
  assert (Hprobe : probeAnswers (sampleOptions "r08" false) fourPageClient).
  { intros err Herr. simpl in Herr. now inversion Herr. }
  assert (Hin : In (sampleObject "r08" 8 "e08")
                  (flat_map Contents (threePages ++ [fourthPage]))).
  { simpl. do 7 right. left. reflexivity. }
  split.
  - split; [reflexivity|]. split; [exact threePages_truncated|].
    split; [reflexivity|]. split; [exact H4|]. split; [exact Hprobe|].
    split; [exact Hin | reflexivity].
  - exact (@upload_refuses_listed_revision 4 (sampleOptions "r08" false)
             fourPageClient threePages fourthPage []
             (sampleObject "r08" 8 "e08") eq_refl threePages_truncated
             eq_refl H4 Hprobe Hin eq_refl eq_refl).
Defined.

(** X11.  A revision that is listed can be activated: when some page of
    the listing holds an object whose key is the listing prefix followed by
    the revision identifier of the options, the activation issues its copy
    onto the index key, exactly one write, and settles as the copy does. *)
Theorem activate_copies_listed_revision :
  forall fuel o w pages lastPage rest d,
    listObjectsReplies w = map Success pages ++ Success lastPage :: rest ->
    Forall truncatedPage pages ->
    IsTruncated lastPage = false ->
    length pages < fuel ->
    probeAnswers o w ->
    In d (flat_map Contents (pages ++ [lastPage])) ->
    Key d = revisionPrefixOf o +' revisionKey o ->
    exists w',
      activate fuel o w
      = (denodeify (copyObjectReply w (activateParams o)), w')
      /\ writes (calls w')
         = writes (calls w) ++ [CopyObjectCall (activateParams o)].
Proof.
  intros fuel o w pages lastPage rest d Hs Hpages Hlast Hfuel Hprobe Hin Hkey.
  destruct (@ledger_of_pages fuel o w pages lastPage rest Hs Hpages Hlast
              Hfuel Hprobe) as (current & w1 & Hfetch).
  exists (issue (CopyObjectCall (activateParams o)) w1).
  rewrite (@activate_after_fetch fuel o w w1 _ Hfetch).
  destruct (@fetchRevisions_no_write fuel o w w1 _ Hfetch)
    as (reads & Hcalls & Hnowrite & Hclient).
  assert (Hfound : In (revisionKey o)
                     (map revision
                        (map (toRevision (revisionPrefixOf o) current)
                           (sort byLastModified
                              (flat_map Contents (pages ++ [lastPage])))))).
  { apply ledger_membership. exists d. split; [exact Hin|].
    now rewrite Hkey, substr_length_append. }
  apply indexOf_found in Hfound. rewrite Hfound.
  destruct Hclient as (_ & _ & Hcopy & _). rewrite Hcopy.
  split; [reflexivity|]. simpl.
  now rewrite Hcalls, !writes_app, Hnowrite, app_nil_r.
Qed.

Lemma activate_copies_listed_revision_witness :
  (listObjectsReplies fourPageClient
   = map Success threePages ++ Success fourthPage :: []
   /\ Forall truncatedPage threePages
   /\ IsTruncated fourthPage = false
   /\ length threePages < 4
   /\ probeAnswers (sampleOptions "r08" false) fourPageClient
   /\ In (sampleObject "r08" 8 "e08")
        (flat_map Contents (threePages ++ [fourthPage]))
   /\ Key (sampleObject "r08" 8 "e08")
      = revisionPrefixOf (sampleOptions "r08" false) +' "r08")
  /\ exists w',
       activate 4 (sampleOptions "r08" false) fourPageClient
       = (Resolved tt, w')
       /\ writes (calls w')
          = writes (calls fourPageClient)
              ++ [CopyObjectCall (activateParams (sampleOptions "r08" false))].
Proof.
  assert (H4 : length threePages < 4) by (simpl; lia).
  assert (Hprobe : probeAnswers (sampleOptions "r08" false) fourPageClient).
  { intros err Herr. simpl in Herr. now inversion Herr. }
  assert (Hin : In (sampleObject "r08" 8 "e08")
                  (flat_map Contents (threePages ++ [fourthPage]))).
  { simpl. do 7 right. left. reflexivity. }
  split.
  - split; [reflexivity|]. split; [exact threePages_truncated|].
    split; [reflexivity|]. split; [exact H4|]. split; [exact Hprobe|].
    split; [exact Hin | reflexivity].
  - exact (@activate_copies_listed_revision 4 (sampleOptions "r08" false)
             fourPageClient threePages fourthPage []
             (sampleObject "r08" 8 "e08") eq_refl threePages_truncated
             eq_refl H4 Hprobe Hin eq_refl).
Defined.

(** X12.  An empty bucket: when the listing's only page has no item and is
    not truncated, the ledger is empty, so every activation is refused with
    the revision-not-found message without a write, and no upload is
    refused as a duplicate, whatever [allowOverwrite] says. *)
Theorem empty_listing_has_no_revision :
  forall fuel o w page rest,
    listObjectsReplies w = Success page :: rest ->
    Contents page = [] ->
    IsTruncated page = false ->
    0 < fuel ->
    probeAnswers o w ->
    exists w1,
      fetchRevisions fuel o w = (Resolved [], w1)
      /\ activate fuel o w = (Rejected (Message REVISION_NOT_FOUND), w1)
      /\ writes (calls w1) = writes (calls w)
      /\ fst (upload fuel o w)
         <> Rejected (Message REVISION_ALREADY_UPLOADED).
Proof.
  intros fuel o w page rest Hs Hempty Hlast Hfuel Hprobe.
  destruct (@ledger_of_pages fuel o w [] page rest Hs (Forall_nil _) Hlast
              Hfuel Hprobe) as (current & w1 & Hfetch).
  simpl in Hfetch. rewrite Hempty in Hfetch. simpl in Hfetch.
  exists w1. split; [exact Hfetch|].
  rewrite (@activate_after_fetch fuel o w w1 _ Hfetch).
  rewrite (@upload_after_fetch fuel o w w1 _ Hfetch).
  destruct (@fetchRevisions_no_write fuel o w w1 _ Hfetch)
    as (reads & Hcalls & Hnowrite & _).
  simpl. split; [reflexivity|].
  split; [now rewrite Hcalls, writes_app, Hnowrite, app_nil_r|].
  destruct (files w1 (filePath o)) as [fileContents|]; simpl;
    [|discriminate].
  destruct (putObjectReply w1 (uploadParams o w fileContents)); discriminate.
Qed.

Lemma empty_listing_has_no_revision_witness :
  (listObjectsReplies emptyBucketClient
   = Success (samplePage [] false None) :: []
   /\ 0 < 1
   /\ probeAnswers (sampleOptions "1" false) emptyBucketClient)
  /\ exists w1,
       fetchRevisions 1 (sampleOptions "1" false) emptyBucketClient
       = (Resolved [], w1)
       /\ activate 1 (sampleOptions "1" false) emptyBucketClient
          = (Rejected (Message REVISION_NOT_FOUND), w1)
       /\ writes (calls w1) = writes (calls emptyBucketClient)
       /\ fst (upload 1 (sampleOptions "1" false) emptyBucketClient)
          <> Rejected (Message REVISION_ALREADY_UPLOADED).
Proof.
  assert (Hprobe : probeAnswers (sampleOptions "1" false) emptyBucketClient).
  { intros err Herr. simpl in Herr. now inversion Herr. }
  split; [repeat split; [apply Nat.lt_0_succ | exact Hprobe]|].
  exact (@empty_listing_has_no_revision 1 (sampleOptions "1" false)
           emptyBucketClient (samplePage [] false None) [] eq_refl eq_refl
           eq_refl (Nat.lt_0_succ 0) Hprobe).
Defined.

Lemma indexOf_absent (x : string) (l : list string) :
  indexOf x l = (-1)%Z <-> ~ In x l.
Proof.
  unfold indexOf.
  assert (H0 : (0 <= 0)%Z) by lia.
  destruct (@indexOfFrom_spec x l 0%Z H0) as [Hin Hout].
  split; [|exact Hout].
  intros Heq Hx. specialize (Hin Hx). lia.
Qed.

Lemma truthyString_nonempty (v : option string) :
  truthyString v <> Some "".
Proof. destruct v as [[|c s]|]; simpl; discriminate. Qed.

(** X13.  The parameters of the write: the object is marked as gzipped
    exactly when the file pattern is one of [gzippedFilePaths], and gets no
    content encoding otherwise; its content type is never empty, the type
    [text/html] standing in when the lookup gives nothing; and a
    server-side encryption is only sent when it is a non-empty string. *)
Theorem upload_write_parameters :
  forall o w fileContents,
    (PutObjectParams.ContentEncoding (uploadParams o w fileContents)
     = Some "gzip" <->
     exists paths, gzippedFilePaths o = Some paths
                   /\ In (filePattern o) paths)
    /\ (PutObjectParams.ContentEncoding (uploadParams o w fileContents)
        = None
        \/ PutObjectParams.ContentEncoding (uploadParams o w fileContents)
           = Some "gzip")
    /\ PutObjectParams.ContentType (uploadParams o w fileContents) <> ""
    /\ (mimeLookup w (filePath o) = None ->
        PutObjectParams.ContentType (uploadParams o w fileContents)
        = "text/html")
    /\ PutObjectParams.ServerSideEncryption (uploadParams o w fileContents)
       <> Some ""
    /\ PutObjectParams.Body (uploadParams o w fileContents) = fileContents.
Proof.
  intros o w fileContents. simpl.
  split; [|split; [|split; [|split; [|split]]]].
  - destruct (Z.eqb_spec
                (indexOf (filePattern o) (orElse (gzippedFilePaths o) []))
                (-1)%Z) as [Habsent|Hfound]; simpl.
    + apply indexOf_absent in Habsent.
      split; [discriminate|].
      intros (paths & Hpaths & Hin). rewrite Hpaths in Habsent.
      now elim Habsent.
    + split; [intros _|reflexivity].
      destruct (gzippedFilePaths o) as [paths|]; simpl in Hfound.
      * exists paths. split; [reflexivity|].
        destruct (in_dec string_dec (filePattern o) paths) as [Hin|Hout];
          [exact Hin|].
        apply indexOf_absent in Hout. now elim Hfound.
      * now elim Hfound.
  - destruct (negb _); auto.
  - pose proof (truthyString_nonempty (mimeLookup w (filePath o))) as Hne.
    destruct (truthyString (mimeLookup w (filePath o))) as [t|]; simpl;
      [|discriminate].
    intro Ht. apply Hne. now rewrite Ht.
  - intro Hnone. now rewrite Hnone.
  - apply truthyString_nonempty.
  - reflexivity.
Qed.

Lemma upload_write_parameters_witness :
  PutObjectParams.ContentEncoding
    (uploadParams gzippedOptions ledgerClient "<html></html>")
  = Some "gzip"
  /\ PutObjectParams.ContentEncoding
       (uploadParams (sampleOptions "4" false) ledgerClient "<html></html>")
     = None.
Proof.
  split.
  - apply (proj2 (proj1 (upload_write_parameters gzippedOptions ledgerClient
                           "<html></html>"))).
    exists ["assets/app.js"; "index.html"].
    split; [reflexivity | right; left; reflexivity].
  - reflexivity.
Defined.

Lemma hexDigit_unreserved (n : nat) : isUnreserved (hexDigit n) = true.
Proof.
  do 16 (destruct n as [|n]; [reflexivity|]). reflexivity.
Qed.

Lemma encodeURIComponent_safe (s : string) :
  Forall uriSafe (list_ascii_of_string (encodeURIComponent s)).
Proof.
  induction s as [|c s IH]; simpl; [constructor|].
  destruct (isUnreserved c) eqn:Hc; simpl.
  - constructor; [now left | exact IH].
  - constructor; [now right|].
    constructor; [left; apply hexDigit_unreserved|].
    constructor; [left; apply hexDigit_unreserved | exact IH].
Qed.

(** X14.  The copy source of an activation is encoded as a whole: it is
    made of letters, digits, the marks [- _ . ! ~ * ' ( )] and percent
    escapes only, so it holds no raw [/] and no raw [:], not even between
    the bucket and the key. *)
Theorem activate_copy_source_encoded :
  forall o,
    Forall uriSafe
      (list_ascii_of_string
         (CopyObjectParams.CopySource (activateParams o)))
    /\ ~ In "/"%char
           (list_ascii_of_string
              (CopyObjectParams.CopySource (activateParams o)))
    /\ ~ In ":"%char
           (list_ascii_of_string
              (CopyObjectParams.CopySource (activateParams o))).
Proof.
  intro o. simpl.
  pose proof (encodeURIComponent_safe
                (bucket o +' "/" +' revisionKeyOf o)) as Hsafe.
  split; [exact Hsafe|].
  rewrite Forall_forall in Hsafe.
  split; intro Hin; apply Hsafe in Hin;
    destruct Hin as [Hu|Hp]; discriminate.
Qed.
